(** * Tool-call orchestration of the MCP example clients

    A shallow embedding of the orchestration code of [client.py] (the
    plan-then-execute client) and of [fastmcp_sse_client.py] (the iterative
    chat session), with the Python library pieces they rely on:

    - [PyStr]: the [str] methods used by the clients;
    - [Re]: a backtracking matcher with Python's priority order, enough for
      the pattern of [plan_tool_use];
    - [Json]: decoded JSON values and [json.loads];
    - [Client]: the planner, the plan parser and the executor loop of
      [client.py];
    - [SseClient]: [ChatSession.process_llm_response] and the reply loop of
      [ChatSession.start].

    Conventions.  A Python [str] is a Rocq [string] holding its UTF-8
    bytes; white space is classified on the ASCII range, which is
    exact for the texts whose edges are ASCII.  [json.loads] is modelled within the limits the interpreter
    puts on digits and nesting ([Limits]).  Numbers are kept as their
    lexemes.  A Python [dict] decoded from JSON is an association
    list in insertion order with distinct keys; [tool_outputs], which is
    only ever read by key, is a [gmap].  Exceptions are values of [exn]
    carried by [result].  The tool host and the language model are external:
    they are section variables threaded through an explicit state, and the
    calls issued to the host are logged in order. *)

From Stdlib Require Import String Ascii List Bool Arith NArith Lia.
From stdpp Require Import base gmap strings.

Import ListNotations.
Local Open Scope string_scope.
Local Open Scope list_scope.

(** ** Exceptions and results *)

Inductive exn : Type :=
| TypeError
| KeyError
| AttributeError
| IndexError
| JSONDecodeError
| HostError (msg : string).

Inductive result (A : Type) : Type :=
| Ok (a : A)
| Raise (e : exn).

Arguments Ok {A} a.
Arguments Raise {A} e.

(** ** Python string methods *)

Module PyStr.

(** [str.isspace] on one character, ASCII range: TAB..CR, FS..US, SPACE. *)
Definition isspace (c : ascii) : bool :=
  let n := nat_of_ascii c in
  ((9 <=? n)%nat && (n <=? 13)%nat) || ((28 <=? n)%nat && (n <=? 32)%nat).

Fixpoint startswith (s prefix : string) : bool :=
  match prefix, s with
  | EmptyString, _ => true
  | String a p, String b s' => Ascii.eqb a b && startswith s' p
  | String _ _, EmptyString => false
  end.

Fixpoint rev_onto (s acc : string) : string :=
  match s with
  | EmptyString => acc
  | String c s' => rev_onto s' (String c acc)
  end.

Definition rev (s : string) : string := rev_onto s EmptyString.

Definition endswith (s suffix : string) : bool :=
  startswith (rev s) (rev suffix).

Fixpoint lstrip_by (p : ascii -> bool) (s : string) : string :=
  match s with
  | EmptyString => EmptyString
  | String c s' => if p c then lstrip_by p s' else s
  end.

Fixpoint rstrip_by (p : ascii -> bool) (s : string) : string :=
  match s with
  | EmptyString => EmptyString
  | String c s' =>
      match rstrip_by p s' with
      | EmptyString => if p c then EmptyString else String c EmptyString
      | r => String c r
      end
  end.

Definition strip_by (p : ascii -> bool) (s : string) : string :=
  rstrip_by p (lstrip_by p s).

(** [s.strip()] *)
Definition strip (s : string) : string := strip_by isspace s.

Fixpoint mem (c : ascii) (chars : string) : bool :=
  match chars with
  | EmptyString => false
  | String d chars' => Ascii.eqb c d || mem c chars'
  end.

(** [s.strip(chars)]: [chars] is a set of characters, not a prefix. *)
Definition strip_chars (s chars : string) : string :=
  strip_by (fun c => mem c chars) s.

(** [sub in s] for two strings. *)
Fixpoint contains (s sub : string) : bool :=
  startswith s sub ||
  match s with
  | EmptyString => false
  | String _ s' => contains s' sub
  end.

End PyStr.

(** ** Regular expressions: backtracking search with one capture group *)

Module Re.

Inductive regex : Type :=
| Lit (s : string)            (* a literal, also a non-capturing group of one *)
| Class (p : ascii -> bool)   (* one character of a class *)
| Seq (r1 r2 : regex)
| Opt (r : regex)             (* r?   greedy *)
| Star (r : regex)            (* r*   greedy *)
| LazyPlus (r : regex)        (* r+?  lazy *)
| Group (r : regex).          (* ( r ), group 1 *)

Fixpoint drop_prefix (l s : string) : option string :=
  match l, s with
  | EmptyString, _ => Some s
  | String a l', String b s' =>
      if Ascii.eqb a b then drop_prefix l' s' else None
  | String _ _, EmptyString => None
  end.

Fixpoint take (n : nat) (s : string) : string :=
  match n, s with
  | S n', String c s' => String c (take n' s')
  | _, _ => EmptyString
  end.

(** [mt r s g k]: match [r] at the head of [s]; [g] is the text captured
    by group 1 so far; the continuation [k] receives the rest of the
    subject and the capture.  Alternatives are tried in Python's order and
    the first success wins.  A repetition is abandoned when an iteration
    consumes nothing. *)
Fixpoint mt {R : Type} (r : regex) (s : string) (g : option string)
    (k : string -> option string -> option R) {struct r} : option R :=
  match r with
  | Lit l =>
      match drop_prefix l s with
      | Some s' => k s' g
      | None => None
      end
  | Class p =>
      match s with
      | String c s' => if p c then k s' g else None
      | EmptyString => None
      end
  | Seq r1 r2 => mt r1 s g (fun s' g' => mt r2 s' g' k)
  | Opt r1 =>
      match mt r1 s g k with
      | Some x => Some x
      | None => k s g
      end
  | Star r1 =>
      (fix loop (n : nat) (s : string) (g : option string) {struct n}
         : option R :=
         match n with
         | O => k s g
         | S n' =>
             match mt r1 s g (fun s' g' =>
                      if (String.length s' <? String.length s)%nat
                      then loop n' s' g' else None) with
             | Some x => Some x
             | None => k s g
             end
         end) (String.length s) s g
  | LazyPlus r1 =>
      (fix loop (n : nat) (s : string) (g : option string) {struct n}
         : option R :=
         match n with
         | O => None
         | S n' =>
             mt r1 s g (fun s' g' =>
               match k s' g' with
               | Some x => Some x
               | None =>
                   if (String.length s' <? String.length s)%nat
                   then loop n' s' g' else None
               end)
         end) (String.length s) s g
  | Group r1 =>
      mt r1 s g (fun s' _ =>
        k s' (Some (take (String.length s - String.length s') s)))
  end.

(** [re.search(r, s)]: the leftmost match; the value is [group(1)],
    [None] inside when the group took no part in the match. *)
Fixpoint search (r : regex) (s : string) : option (option string) :=
  match mt r s None (fun _ g => Some g) with
  | Some g => Some g
  | None =>
      match s with
      | EmptyString => None
      | String _ s' => search r s'
      end
  end.

Definition any_char (c : ascii) : bool := true.

(** A search result whose group 1, if any, is a single character. *)
Definition one_char (x : option (option string)) : Prop :=
  x = None \/ exists c, x = Some (Some (String c EmptyString)).

End Re.

(** ** Python dictionaries decoded from JSON: association lists in
    insertion order *)

Module Dict.
Section Dict.
Context {V : Type}.

Fixpoint get (k : string) (d : list (string * V)) : option V :=
  match d with
  | [] => None
  | (k', v) :: d' => if String.eqb k k' then Some v else get k d'
  end.

(** [k in d] *)
Definition mem (k : string) (d : list (string * V)) : bool :=
  match get k d with
  | Some _ => true
  | None => false
  end.

(** [d[k] = v]: an existing key keeps its place, a new key goes last. *)
Fixpoint set (k : string) (v : V) (d : list (string * V))
  : list (string * V) :=
  match d with
  | [] => [(k, v)]
  | (k', v') :: d' =>
      if String.eqb k k' then (k', v) :: d' else (k', v') :: set k v d'
  end.

(** Rebinding every value in place, as a loop over [d.items()] that
    assigns [d[key]] does. *)
Definition map_values (f : V -> V) (d : list (string * V))
  : list (string * V) :=
  List.map (fun kv => (fst kv, f (snd kv))) d.
End Dict.
End Dict.

(** ** JSON values and [json.loads] *)

Module Json.

#[warnings="-register-all"]
Inductive json : Type :=
| JNull
| JBool (b : bool)
| JNum (lexeme : string)
| JStr (s : string)
| JArr (items : list json)
| JObj (members : list (string * json)).

Definition ch (n : N) : ascii := ascii_of_N n.
Definition code (c : ascii) : N := N_of_ascii c.

(** The quotation mark. *)
Definition dquote : ascii := ch 34.

Definition is_ws (c : ascii) : bool :=
  let n := code c in
  (n =? 32)%N || (n =? 9)%N || (n =? 10)%N || (n =? 13)%N.

Definition is_digit (c : ascii) : bool :=
  let n := code c in (48 <=? n)%N && (n <=? 57)%N.

Definition is_digit19 (c : ascii) : bool :=
  let n := code c in (49 <=? n)%N && (n <=? 57)%N.

Definition hexval (c : ascii) : option N :=
  let n := code c in
  if (48 <=? n)%N && (n <=? 57)%N then Some (n - 48)%N
  else if (65 <=? n)%N && (n <=? 70)%N then Some (n - 55)%N
  else if (97 <=? n)%N && (n <=? 102)%N then Some (n - 87)%N
  else None.

(** UTF-8 bytes of a code point (a lone surrogate gets the three-byte
    form). *)
Definition utf8 (n : N) : list ascii :=
  if (n <? 128)%N then [ch n]
  else if (n <? 2048)%N then [ch (192 + n / 64); ch (128 + n mod 64)]%N
  else if (n <? 65536)%N then
    [ch (224 + n / 4096); ch (128 + (n / 64) mod 64); ch (128 + n mod 64)]%N
  else
    [ch (240 + n / 262144); ch (128 + (n / 4096) mod 64);
     ch (128 + (n / 64) mod 64); ch (128 + n mod 64)]%N.

Fixpoint string_of_rev (acc : list ascii) (tail : string) : string :=
  match acc with
  | [] => tail
  | c :: acc' => string_of_rev acc' (String c tail)
  end.

(** The scanner is a pushdown machine that reads one character at a time. *)

Inductive numst : Type :=
| NMinus | NZero | NInt | NDot | NFrac | NExp | NExpSign | NExpDigits.

Inductive frame : Type :=
| FArr (acc : list json)                              (* items, reversed *)
| FObj (d : list (string * json)) (key : option string).

Inductive mode : Type :=
| MValue (close_ok : bool)  (* a value is due; right after '[' also ']' *)
| MKey (close_ok : bool)    (* a key is due; right after '{' also '}' *)
| MColon
| MAfter                    (* a value inside a container is complete *)
| MDone (v : json)          (* the document is complete *)
| MStr (iskey : bool) (acc : list ascii) (pend : option N)
| MEsc (iskey : bool) (acc : list ascii) (pend : option N)
| MUni (iskey : bool) (acc : list ascii) (pend : option N) (digits : list N)
| MNum (st : numst) (acc : list ascii)
| MLit (rest : string) (v : json)
| MFail.

Definition state : Type := (mode * list frame)%type.

Definition fail : state := (MFail, []).

Definition push_value (v : json) (stk : list frame) : state :=
  match stk with
  | [] => (MDone v, [])
  | FArr acc :: rest => (MAfter, FArr (v :: acc) :: rest)
  | FObj d (Some k) :: rest => (MAfter, FObj (Dict.set k v d) None :: rest)
  | FObj _ None :: _ => fail
  end.

Definition after_char (c : ascii) (stk : list frame) : state :=
  if is_ws c then (MAfter, stk)
  else if Ascii.eqb c "," then
    match stk with
    | FArr _ :: _ => (MValue false, stk)
    | FObj _ None :: _ => (MKey false, stk)
    | _ => fail
    end
  else if Ascii.eqb c "]" then
    match stk with
    | FArr acc :: rest => push_value (JArr (List.rev acc)) rest
    | _ => fail
    end
  else if Ascii.eqb c "}" then
    match stk with
    | FObj d None :: rest => push_value (JObj d) rest
    | _ => fail
    end
  else fail.

Definition done_char (v : json) (c : ascii) : state :=
  if is_ws c then (MDone v, []) else fail.

Definition value_char (close_ok : bool) (c : ascii) (stk : list frame)
  : state :=
  if is_ws c then (MValue close_ok, stk)
  else if Ascii.eqb c dquote then (MStr false [] None, stk)
  else if Ascii.eqb c "{" then (MKey true, FObj [] None :: stk)
  else if Ascii.eqb c "[" then (MValue true, FArr [] :: stk)
  else if Ascii.eqb c "]" then
    match close_ok, stk with
    | true, FArr acc :: rest => push_value (JArr (List.rev acc)) rest
    | _, _ => fail
    end
  else if Ascii.eqb c "-" then (MNum NMinus [c], stk)
  else if Ascii.eqb c "0" then (MNum NZero [c], stk)
  else if is_digit19 c then (MNum NInt [c], stk)
  else if Ascii.eqb c "n" then (MLit "ull" JNull, stk)
  else if Ascii.eqb c "t" then (MLit "rue" (JBool true), stk)
  else if Ascii.eqb c "f" then (MLit "alse" (JBool false), stk)
  else if Ascii.eqb c "N" then (MLit "aN" (JNum "NaN"), stk)
  else if Ascii.eqb c "I" then (MLit "nfinity" (JNum "Infinity"), stk)
  else fail.

Definition key_char (close_ok : bool) (c : ascii) (stk : list frame)
  : state :=
  if is_ws c then (MKey close_ok, stk)
  else if Ascii.eqb c dquote then (MStr true [] None, stk)
  else if Ascii.eqb c "}" then
    match close_ok, stk with
    | true, FObj d None :: rest => push_value (JObj d) rest
    | _, _ => fail
    end
  else fail.

(** A high surrogate waits in [pend] for its low half; anything else
    releases it. *)
Definition flush (pend : option N) (acc : list ascii) : list ascii :=
  match pend with
  | Some hi => List.rev (utf8 hi) ++ acc
  | None => acc
  end.

Definition close_string (iskey : bool) (s : string) (stk : list frame)
  : state :=
  if iskey then
    match stk with
    | FObj d None :: rest => (MColon, FObj d (Some s) :: rest)
    | _ => fail
    end
  else push_value (JStr s) stk.

Definition str_char (iskey : bool) (acc : list ascii) (pend : option N)
    (c : ascii) (stk : list frame) : state :=
  if Ascii.eqb c dquote then
    close_string iskey (string_of_rev (flush pend acc) EmptyString) stk
  else if Ascii.eqb c "\" then (MEsc iskey acc pend, stk)
  else if (code c <? 32)%N then fail
  else (MStr iskey (c :: flush pend acc) None, stk).

Definition escape (c : ascii) : option ascii :=
  if Ascii.eqb c dquote then Some c
  else if Ascii.eqb c "\" then Some c
  else if Ascii.eqb c "/" then Some c
  else if Ascii.eqb c "b" then Some (ch 8)
  else if Ascii.eqb c "f" then Some (ch 12)
  else if Ascii.eqb c "n" then Some (ch 10)
  else if Ascii.eqb c "r" then Some (ch 13)
  else if Ascii.eqb c "t" then Some (ch 9)
  else None.

Definition esc_char (iskey : bool) (acc : list ascii) (pend : option N)
    (c : ascii) (stk : list frame) : state :=
  if Ascii.eqb c "u" then (MUni iskey acc pend [], stk)
  else
    match escape c with
    | Some e => (MStr iskey (e :: flush pend acc) None, stk)
    | None => fail
    end.

Definition hex4 (ds : list N) : N :=
  List.fold_left (fun a d => (16 * a + d)%N) ds 0%N.

Definition is_high (u : N) : bool := (55296 <=? u)%N && (u <=? 56319)%N.
Definition is_low (u : N) : bool := (56320 <=? u)%N && (u <=? 57343)%N.

Definition uni_done (iskey : bool) (acc : list ascii) (pend : option N)
    (u : N) : mode :=
  match pend with
  | Some hi =>
      if is_low u then
        MStr iskey
          (List.rev (utf8 (65536 + ((hi - 55296) * 1024 + (u - 56320)))%N)
             ++ acc) None
      else if is_high u then MStr iskey (flush pend acc) (Some u)
      else MStr iskey (List.rev (utf8 u) ++ flush pend acc) None
  | None =>
      if is_high u then MStr iskey acc (Some u)
      else MStr iskey (List.rev (utf8 u) ++ acc) None
  end.

Definition uni_char (iskey : bool) (acc : list ascii) (pend : option N)
    (digits : list N) (c : ascii) (stk : list frame) : state :=
  match hexval c with
  | Some d =>
      let ds := digits ++ [d] in
      if (List.length ds =? 4)%nat
      then (uni_done iskey acc pend (hex4 ds), stk)
      else (MUni iskey acc pend ds, stk)
  | None => fail
  end.

Definition num_final (st : numst) : bool :=
  match st with
  | NZero | NInt | NFrac | NExpDigits => true
  | _ => false
  end.

(** The number ends before [c]; [c] is then read after the value. *)
Definition num_end (acc : list ascii) (c : ascii) (stk : list frame)
  : state :=
  match push_value (JNum (string_of_rev acc EmptyString)) stk with
  | (MDone v, _) => done_char v c
  | (MAfter, stk') => after_char c stk'
  | _ => fail
  end.

Definition is_e (c : ascii) : bool := Ascii.eqb c "e" || Ascii.eqb c "E".

Definition num_char (st : numst) (acc : list ascii) (c : ascii)
    (stk : list frame) : state :=
  match st with
  | NMinus =>
      if Ascii.eqb c "0" then (MNum NZero (c :: acc), stk)
      else if is_digit19 c then (MNum NInt (c :: acc), stk)
      else if Ascii.eqb c "I" then (MLit "nfinity" (JNum "-Infinity"), stk)
      else fail
  | NZero =>
      if Ascii.eqb c "." then (MNum NDot (c :: acc), stk)
      else if is_e c then (MNum NExp (c :: acc), stk)
      else num_end acc c stk
  | NInt =>
      if is_digit c then (MNum NInt (c :: acc), stk)
      else if Ascii.eqb c "." then (MNum NDot (c :: acc), stk)
      else if is_e c then (MNum NExp (c :: acc), stk)
      else num_end acc c stk
  | NDot =>
      if is_digit c then (MNum NFrac (c :: acc), stk) else fail
  | NFrac =>
      if is_digit c then (MNum NFrac (c :: acc), stk)
      else if is_e c then (MNum NExp (c :: acc), stk)
      else num_end acc c stk
  | NExp =>
      if Ascii.eqb c "+" || Ascii.eqb c "-"
      then (MNum NExpSign (c :: acc), stk)
      else if is_digit c then (MNum NExpDigits (c :: acc), stk)
      else fail
  | NExpSign =>
      if is_digit c then (MNum NExpDigits (c :: acc), stk) else fail
  | NExpDigits =>
      if is_digit c then (MNum NExpDigits (c :: acc), stk)
      else num_end acc c stk
  end.

Definition lit_char (rest : string) (v : json) (c : ascii)
    (stk : list frame) : state :=
  match rest with
  | String r EmptyString => if Ascii.eqb c r then push_value v stk else fail
  | String r rest' => if Ascii.eqb c r then (MLit rest' v, stk) else fail
  | EmptyString => fail
  end.

Definition step (st : state) (c : ascii) : state :=
  let (m, stk) := st in
  match m with
  | MValue close_ok => value_char close_ok c stk
  | MKey close_ok => key_char close_ok c stk
  | MColon =>
      if is_ws c then (MColon, stk)
      else if Ascii.eqb c ":" then (MValue false, stk)
      else fail
  | MAfter => after_char c stk
  | MDone v => done_char v c
  | MStr iskey acc pend => str_char iskey acc pend c stk
  | MEsc iskey acc pend => esc_char iskey acc pend c stk
  | MUni iskey acc pend ds => uni_char iskey acc pend ds c stk
  | MNum ns acc => num_char ns acc c stk
  | MLit rest v => lit_char rest v c stk
  | MFail => fail
  end.

Fixpoint run (st : state) (s : string) : state :=
  match s with
  | EmptyString => st
  | String c s' => run (step st c) s'
  end.

Definition finish (st : state) : result json :=
  match st with
  | (MDone v, _) => Ok v
  | (MNum ns acc, []) =>
      if num_final ns then Ok (JNum (string_of_rev acc EmptyString))
      else Raise JSONDecodeError
  | _ => Raise JSONDecodeError
  end.

(** [json.loads(s)]: the decoded document, or [JSONDecodeError].  The
    interpreter also bounds the digits of an integer and the depth of the
    nesting; the decoder stands for [json.loads] within these bounds. *)
Definition loads (s : string) : result json :=
  finish (run (MValue false, []) s).

(** [needle in v] for a decoded value [v]: key membership for a dict,
    element membership for a list, substring for a str; the other types
    do not support [in]. *)
Definition contains (v : json) (needle : string) : result bool :=
  match v with
  | JObj d => Ok (Dict.mem needle d)
  | JArr l =>
      Ok (existsb (fun x => match x with
                            | JStr s => String.eqb s needle
                            | _ => false
                            end) l)
  | JStr s => Ok (PyStr.contains s needle)
  | JNull | JBool _ | JNum _ => Raise TypeError
  end.

(** [v[key]] for a string [key]. *)
Definition getitem (v : json) (key : string) : result json :=
  match v with
  | JObj d =>
      match Dict.get key d with
      | Some x => Ok x
      | None => Raise KeyError
      end
  | _ => Raise TypeError
  end.

End Json.

(** ** The tool host

    [session.call_tool] is external.  It either raises or answers with a
    result object whose [content] is a list of items; [isError] marks a
    failure reported by the host as a payload.  Only text items have a
    [text] attribute. *)

Module Host.

Inductive content_item : Type :=
| TextContent (text : string)
| OtherContent (kind : string).

Inductive outcome : Type :=
| Raised (msg : string)
| Returned (isError : bool) (content : list content_item).

End Host.

(** ** client.py *)

Module Client.
Import Json Host.

(** A message of a transcript. *)
Record message : Type := Message {
  role : string;
  tool_call_id : option json;
  content : string
}.

(** *** The plan parser: lines 164-176 of [plan_tool_use] *)

(** The pattern of line 165, [(?:json)?\s*([\s\S]+?)\s*]. *)
Definition plan_pattern : Re.regex :=
  Re.Seq (Re.Opt (Re.Lit "json"))
    (Re.Seq (Re.Star (Re.Class PyStr.isspace))
       (Re.Seq (Re.Group (Re.LazyPlus (Re.Class Re.any_char)))
          (Re.Star (Re.Class PyStr.isspace)))).

(** [json_text]: [match.group(1)] when the search matches, the whole
    content otherwise.  [None] stands for a group that took no part. *)
Definition json_text (content : string) : option string :=
  match Re.search plan_pattern content with
  | Some g => g
  | None => Some content
  end.

(** [json.loads(json_text)]; a [None] argument is a [TypeError]. *)
Definition loads_text (t : option string) : result json :=
  match t with
  | Some s => loads s
  | None => Raise TypeError
  end.

Definition plan_failure (content : string) : string :=
  "工具调用链规划失败，原始返回为：" +:+ content.

(** The value is the plan together with the lines printed.  [raw] is
    [plan_response.choices[0].message.content]. *)
Definition parse_plan (raw : string) : list json * list string :=
  let content := PyStr.strip raw in
  match loads_text (json_text content) with
  | Ok (JArr plan) => (plan, [])
  | Ok _ => ([], [])
  | Raise _ => ([], [plan_failure content])
  end.

(** *** The planner: [plan_tool_use] as a whole *)

(** The keywords of [json.dumps]; any other keyword goes to the
    constructor of the encoder, which rejects it with a [TypeError]. *)
Definition dumps_keywords : list string :=
  ["skipkeys"; "ensure_ascii"; "check_circular"; "allow_nan"; "cls";
   "indent"; "separators"; "default"; "sort_keys"].

Definition dumps_check (keywords : list string) : result unit :=
  if forallb (fun k => existsb (String.eqb k) dumps_keywords) keywords
  then Ok tt else Raise TypeError.

Definition nl : string := String (ch 10) EmptyString.

(** [sep.join(l)] *)
Fixpoint join (sep : string) (l : list string) : string :=
  match l with
  | [] => EmptyString
  | [x] => x
  | x :: l' => x +:+ sep +:+ join sep l'
  end.

(** A tool of the catalog: its name and its description. *)
Definition tool_list_text (tools : list (string * string)) : string :=
  join nl (List.map (fun t => "--" +:+ fst t +:+ ": " +:+ snd t) tools).

Definition system_prompt (tools : list (string * string)) : message :=
  Message "system" None
    ("你是一个智能任务规划助手，用户会给出自然语言请求。" +:+ nl
     +:+ "你只能从以下工具中选择（严格使用工具名称）：" +:+ nl
     +:+ tool_list_text tools +:+ nl
     +:+ "如果需多个工具串联使用，后续步骤中可以使用 {{上一步工具名}} 占位。" +:+ nl
     +:+ "返回格式：JSON数组，每个元素是一个对象，包含 name 和 arguments 两个字段，name 是工具名，arguments 是工具参数。" +:+ nl
     +:+ "不要返回自然语言，不要使用未列出的工具名。" +:+ nl).

(** Line 137. *)
Definition heading : string := nl +:+ "提交给大模型的工具有：".

Section Planner.
Context {M : Type}.
(** The completion request of line 157, with tool calls switched off; the
    value is the content of the first choice. *)
Variable complete : M -> list message -> result string * M.
(** The text [json.dumps] gives for the tools when it is called with
    keywords it knows. *)
Variable dumps : list (string * string) -> string.

(** [plan_tool_use]: the plan returned or the exception raised, and the
    lines printed on the way.  Line 137 prints the heading; line 138 prints
    [json.dumps(tools, esure_ascii=False, indent=2)]. *)
Definition plan_tool_use (m : M) (query : string)
    (tools : list (string * string))
  : (result (list json) * list string) * M :=
  match dumps_check ["esure_ascii"; "indent"] with
  | Raise e => ((Raise e, [heading]), m)
  | Ok _ =>
      let plan_messages := [system_prompt tools; Message "user" None query] in
      let (r, m') := complete m plan_messages in
      match r with
      | Raise e => ((Raise e, [heading; dumps tools]), m')
      | Ok raw =>
          let (plan, printed) := parse_plan raw in
          ((Ok plan, heading :: dumps tools :: printed), m')
      end
  end.

End Planner.

(** *** The executor: lines 77-96 of [process_query]

    The loop is modelled for a given plan, whatever produced it. *)

(** [val.startswith("{{") and val.endswith("}}")] *)
Definition is_placeholder (val : string) : bool :=
  PyStr.startswith val "{{" && PyStr.endswith val "}}".

(** Lines 84-87 for one value. *)
Definition resolve_val (tool_outputs : gmap string string) (val : json)
  : json :=
  match val with
  | JStr s =>
      if is_placeholder s then
        let ref_key := PyStr.strip_chars s "{} " in
        match tool_outputs !! ref_key with
        | Some text => JStr text
        | None => JNull
        end
      else val
  | _ => val
  end.

(** Lines 83-87: every key of [tool_args] is visited once and rebound. *)
Definition resolve_args (tool_outputs : gmap string string)
    (tool_args : list (string * json)) : list (string * json) :=
  Dict.map_values (resolve_val tool_outputs) tool_args.

Definition name_is (tool_name : json) (s : string) : bool :=
  match tool_name with
  | JStr n => String.eqb n s
  | _ => false
  end.

Section Executor.
Context {H : Type}.
Variable call_tool : H -> json -> list (string * json) -> outcome * H.
Variables txt_filename txt_path : string.

(** Lines 89-92. *)
Definition inject_defaults (tool_name : json)
    (tool_args : list (string * json)) : list (string * json) :=
  let args1 :=
    if name_is tool_name "analyze_sentiment"
       && negb (Dict.mem "filename" tool_args)
    then Dict.set "filename" (JStr txt_filename) tool_args
    else tool_args in
  if name_is tool_name "send_email_with_attachment"
     && negb (Dict.mem "attachment_path" args1)
  then Dict.set "attachment_path" (JStr txt_path) args1
  else args1.

(** The arguments a step is invoked with. *)
Definition prepare (tool_outputs : gmap string string) (tool_name : json)
    (tool_args : list (string * json)) : list (string * json) :=
  inject_defaults tool_name (resolve_args tool_outputs tool_args).

(** [tool_outputs] holds the entries with a [str] key: it is read only
    through [tool_outputs.get(ref_key)] with a [str] key, which no other
    key equals.  [calls] logs the invocations issued to the host. *)
Record exec_state : Type := ExecState {
  tool_outputs : gmap string string;
  messages : list message;
  host : H;
  calls : list (json * list (string * json))
}.

Definition tool_message (tool_name : json) (text : string) : message :=
  Message "tool" (Some tool_name) text.

(** Lines 95-96 once [result.content[0].text] is known. *)
Definition record_result (st : exec_state) (tool_name : json)
    (text : string) : exec_state * option exn :=
  match tool_name with
  | JArr _ | JObj _ => (st, Some TypeError)        (* unhashable key *)
  | JStr n =>
      (ExecState (<[n := text]> (tool_outputs st))
         (messages st ++ [tool_message tool_name text])
         (host st) (calls st), None)
  | _ =>
      (ExecState (tool_outputs st)
         (messages st ++ [tool_message tool_name text])
         (host st) (calls st), None)
  end.

(** One iteration of the loop of line 79.  The value is the state
    reached and the exception that left the loop body, if any. *)
Definition exec_step (st : exec_state) (step : json)
  : exec_state * option exn :=
  match getitem step "name" with
  | Raise e => (st, Some e)
  | Ok tool_name =>
      match getitem step "arguments" with
      | Raise e => (st, Some e)
      | Ok (JObj tool_args) =>
          let args := prepare (tool_outputs st) tool_name tool_args in
          let (out, h') := call_tool (host st) tool_name args in
          let st1 := ExecState (tool_outputs st) (messages st) h'
                       (calls st ++ [(tool_name, args)]) in
          match out with
          | Raised msg => (st1, Some (HostError msg))
          | Returned _ [] => (st1, Some IndexError)
          | Returned _ (OtherContent _ :: _) => (st1, Some AttributeError)
          | Returned _ (TextContent text :: _) =>
              record_result st1 tool_name text
          end
      | Ok _ => (st, Some AttributeError)   (* no [items] on a non-dict *)
      end
  end.

(** The loop: an exception ends it and leaves [process_query]. *)
Fixpoint run_plan (st : exec_state) (tool_plan : list json)
  : exec_state * option exn :=
  match tool_plan with
  | [] => (st, None)
  | step :: rest =>
      match exec_step st step with
      | (st', None) => run_plan st' rest
      | (st', Some e) => (st', Some e)
      end
  end.

(** Lines 70-77: the transcript starts with the user message and
    [tool_outputs] starts empty. *)
Definition initial (h : H) (new_query : string) : exec_state :=
  ExecState ∅ [Message "user" None new_query] h [].

End Executor.

End Client.

(** ** fastmcp_sse_client.py *)

Module SseClient.
Import Json Host.

Record message : Type := Message {
  role : string;
  content : string
}.

(** Lines 45-46: the rebinding of [llm_response] when it starts with a
    fence.  Each [strip] takes a set of characters. *)
Definition unfence (llm_response : string) : string :=
  if PyStr.startswith llm_response "```json"
  then PyStr.strip
         (PyStr.strip_chars (PyStr.strip_chars llm_response "```json") "```")
  else llm_response.

Definition call_message (tool text : string) : string :=
  "调用了" +:+ tool +:+ "工具，结果为" +:+ text.

Definition error_message (err : string) : string :=
  "调用工具时出错：" +:+ err.

Definition missing_message (tool : string) : string :=
  "没有该工具：" +:+ tool.

(** A reply of the model together with the call it stands for. *)
Record tool_reply : Type := ToolReply {
  reply_text : string;
  reply_tool : string;
  reply_args : json
}.

Section Session.
Context {H L : Type}.
(** The session of the tool host: its catalog (tool names) and its
    invocation. *)
Variable list_tools : H -> result (list string).
Variable call_tool : H -> string -> json -> outcome * H.
(** [str()] of a decoded value that is not a [str], as an f-string
    renders it. *)
Variable py_str : json -> string.
(** [LLMClient.get_response]. *)
Variable get_response : L -> list message -> result string * L.

Record session : Type := Session {
  messages : list message;
  host : H;
  llm : L;
  calls : list (string * json)
}.

Definition format (v : json) : string :=
  match v with
  | JStr s => s
  | _ => py_str v
  end.

(** [any(tool.name == tool_call["tool"] for tool in tools)] *)
Definition known (tools : list string) (tool : json) : bool :=
  existsb (fun name => match tool with
                       | JStr s => String.eqb name s
                       | _ => false
                       end) tools.

(** Lines 52-58: the guarded invocation; [except Exception] turns
    whatever is raised inside into the error message. *)
Definition invoke (st : session) (tool_call : json) (tool : string)
  : string * session :=
  match getitem tool_call "arguments" with
  | Raise _ => (error_message "'arguments'", st)
  | Ok args =>
      let (out, h') := call_tool (host st) tool args in
      let st' := Session (messages st) h' (llm st)
                   (calls st ++ [(tool, args)]) in
      match out with
      | Raised msg => (error_message msg, st')
      | Returned _ [] => (error_message "list index out of range", st')
      | Returned _ (OtherContent kind :: _) =>
          (error_message
             ("'" +:+ kind +:+ "' object has no attribute 'text'"), st')
      | Returned _ (TextContent text :: _) => (call_message tool text, st')
      end
  end.

(** [ChatSession.process_llm_response], lines 39-63.  Only
    [json.JSONDecodeError] is caught by the outer [try]. *)
Definition process_llm_response (st : session) (llm_response : string)
  : result string * session :=
  let llm_response := unfence llm_response in
  match loads llm_response with
  | Raise JSONDecodeError => (Ok llm_response, st)
  | Raise e => (Raise e, st)
  | Ok tool_call =>
      match contains tool_call "tool" with
      | Raise e => (Raise e, st)
      | Ok false => (Ok llm_response, st)
      | Ok true =>
          match contains tool_call "arguments" with
          | Raise e => (Raise e, st)
          | Ok false => (Ok llm_response, st)
          | Ok true =>
              match list_tools (host st) with
              | Raise e => (Raise e, st)
              | Ok tools =>
                  match getitem tool_call "tool" with
                  | Raise e => (Raise e, st)
                  | Ok tool =>
                      if known tools tool then
                        let (r, st') := invoke st tool_call (format tool) in
                        (Ok r, st')
                      else (Ok (missing_message (format tool)), st)
                  end
              end
          end
      end
  end.

Definition say (st : session) (ms : list message) : session :=
  Session (messages st ++ ms) (host st) (llm st) (calls st).

Definition ask (st : session) : result string * session :=
  let (r, l') := get_response (llm st) (messages st) in
  (r, Session (messages st) (host st) l' (calls st)).

(** The loop of line 84, [while result != llm_response], and line 92.
    [fuel] bounds the number of iterations; [None] is an exhausted
    bound.  The value is the state reached and the exception that left
    the loop, if any. *)
Fixpoint tool_loop (fuel : nat) (st : session)
    (llm_response result : string) : option (session * option exn) :=
  if String.eqb result llm_response then
    Some (say st [Message "assistant" llm_response], None)
  else
    match fuel with
    | O => None
    | S fuel' =>
        let st1 := say st [Message "assistant" llm_response;
                           Message "system" result] in
        match ask st1 with
        | (Raise e, st2) => Some (st2, Some e)
        | (Ok llm_response', st2) =>
            match process_llm_response st2 llm_response' with
            | (Raise e, st3) => Some (st3, Some e)
            | (Ok result', st3) =>
                tool_loop fuel' st3 llm_response' result'
            end
        end
    end.

(** One turn of [ChatSession.start], lines 77-92, for a user input that
    is not a quit word. *)
Definition turn (fuel : nat) (st : session) (user_input : string)
  : option (session * option exn) :=
  let st0 := say st [Message "user" user_input] in
  match ask st0 with
  | (Raise e, st1) => Some (st1, Some e)
  | (Ok llm_response, st1) =>
      match process_llm_response st1 llm_response with
      | (Raise e, st2) => Some (st2, Some e)
      | (Ok result, st2) => tool_loop fuel st2 llm_response result
      end
  end.

(** The state after the call a reply stands for. *)
Definition called (st : session) (c : tool_reply) : session :=
  Session (messages st)
    (snd (call_tool (host st) (reply_tool c) (reply_args c)))
    (llm st) (calls st ++ [(reply_tool c, reply_args c)]).

(** The tool of a reply is in the catalog, whatever the host state. *)
Definition offered (c : tool_reply) : Prop :=
  forall h, exists ts, list_tools h = Ok ts /\ In (reply_tool c) ts.

End Session.

(** A scripted model: the replies are handed out in order. *)
Definition scripted (l : list string) (_ : list message)
  : result string * list string :=
  match l with
  | r :: l' => (Ok r, l')
  | [] => (Raise (HostError "no reply"), [])
  end.

(** The reply encodes the call: once the fence, if any, is removed it
    decodes to an object with the two keys. *)
Definition encodes_call (c : tool_reply) : Prop :=
  exists d, loads (unfence (reply_text c)) = Ok (JObj d) /\
            Dict.get "tool" d = Some (JStr (reply_tool c)) /\
            Dict.get "arguments" d = Some (reply_args c).

(** A reply without a fence that does not decode, or decodes to a value
    that lacks one of the two keys. *)
Definition plain_reply (t : string) : Prop :=
  PyStr.startswith t "```json" = false /\
  (loads t = Raise JSONDecodeError \/
   exists v, loads t = Ok v /\
             (contains v "tool" = Ok false \/
              contains v "tool" = Ok true /\
              contains v "arguments" = Ok false)).

End SseClient.

(** ** Scenarios

    Concrete texts, plans and hosts on which the properties are exercised. *)

Module Scenario.
Import Json Host.

Definition quoted (s : string) : string :=
  String dquote s +:+ String dquote EmptyString.

(** A host that hands out prepared answers in order. *)
Definition script_host {N A : Type} (h : list outcome) (_ : N) (_ : A)
  : outcome * list outcome :=
  match h with
  | out :: h' => (out, h')
  | [] => (Raised "no answer", [])
  end.

Definition text (s : string) : outcome := Returned false [TextContent s].
Definition failure (s : string) : outcome := Returned true [TextContent s].

Definition call_step (name : string) (args : list (string * json)) : json :=
  JObj [("name", JStr name); ("arguments", JObj args)].

(** [[{"name": "toolA", "arguments": {}}]] *)
Definition plan_text : string :=
  "[{" +:+ quoted "name" +:+ ": " +:+ quoted "toolA" +:+ ", "
    +:+ quoted "arguments" +:+ ": {}}]".

(** The same text inside a fence labelled json. *)
Definition fenced_plan_text : string :=
  "```json" +:+ Client.nl +:+ plan_text +:+ Client.nl +:+ "```".

Definition chain_plan : list json :=
  [call_step "toolA" []; call_step "toolB" [("x", JStr "{{toolA}}")]].

Definition bad_good_plan : list json :=
  [call_step "badTool" []; call_step "goodTool" []].

Definition twice_plan : list json :=
  [call_step "toolA" []; call_step "toolA" [];
   call_step "toolB" [("x", JStr "{{toolA}}")]].

(** [{"tool": <name>, "arguments": {"a": <a>, "b": <b>}}] *)
Definition tool_call_text (name a b : string) : string :=
  "{" +:+ quoted "tool" +:+ ": " +:+ quoted name +:+ ", "
    +:+ quoted "arguments" +:+ ": {" +:+ quoted "a" +:+ ": " +:+ a +:+ ", "
    +:+ quoted "b" +:+ ": " +:+ b +:+ "}}".

Definition catalog (_ : list outcome) : result (list string) :=
  Ok ["add"; "substract"; "multiply"; "divide"].

Definition no_str (_ : json) : string := "".

(** Two calls, then a plain answer. *)
Definition two_calls : list SseClient.tool_reply :=
  [SseClient.ToolReply (tool_call_text "multiply" "88.5" "235") "multiply"
     (JObj [("a", JNum "88.5"); ("b", JNum "235")]);
   SseClient.ToolReply (tool_call_text "add" "20797.5" "2") "add"
     (JObj [("a", JNum "20797.5"); ("b", JNum "2")])].

Definition scripted_session
  : @SseClient.session (list outcome) (list string) :=
  SseClient.Session [SseClient.Message "system" "rules"]
    [text "20797.5"; text "20799.5"]
    (List.map SseClient.reply_text two_calls ++ ["plain text"]) [].

(** A call of a tool the catalog lacks, a call of [add], then a plain
    answer. *)
Definition power_session
  : @SseClient.session (list outcome) (list string) :=
  SseClient.Session [SseClient.Message "system" "rules"]
    [text "258"; text "spare"]
    [tool_call_text "power" "2" "8"; tool_call_text "add" "256" "2";
     "plain text"] [].

End Scenario.

(** ** Shapes of texts

    Predicates in which the properties of the stripping calls are stated. *)

Module Shape.

Fixpoint all_chars (p : ascii -> bool) (s : string) : bool :=
  match s with
  | EmptyString => true
  | String c s' => p c && all_chars p s'
  end.

Definition first_char (s : string) : option ascii :=
  match s with
  | EmptyString => None
  | String c _ => Some c
  end.

Fixpoint last_char (s : string) : option ascii :=
  match s with
  | EmptyString => None
  | String c EmptyString => Some c
  | String _ s' => last_char s'
  end.

(** The text is not empty and neither its first nor its last character
    belongs to the class [p]. *)
Definition edges_outside (p : ascii -> bool) (s : string) : bool :=
  match first_char s, last_char s with
  | Some a, Some b => negb (p a) && negb (p b)
  | _, _ => false
  end.

(** The characters [strip("{} ")] removes. *)
Definition brace_or_space (c : ascii) : bool := PyStr.mem c "{} ".

(** The characters [strip("```json")] removes, and white space. *)
Definition fence_or_space (c : ascii) : bool :=
  PyStr.mem c "```json" || PyStr.isspace c.

(** The same, and the bytes of the characters beyond ASCII. *)
Definition fence_space_or_wide (c : ascii) : bool :=
  fence_or_space c || (128 <=? Json.code c)%N.

End Shape.

(** ** The limits of the interpreter

    [json.loads] of CPython refuses an integer literal of more than 4300
    digits with a [ValueError] and a nesting beyond the recursion limit
    (1000 frames unless it is changed) with a [RecursionError].  [Json.loads]
    has neither; it stands for [json.loads] on the texts that stay clear of
    both, which [within_limits] recognises: no run of more than 4300 digits,
    and at most 200 opening brackets. *)

Module Limits.

Definition is_digit (c : ascii) : bool :=
  (48 <=? Json.code c)%N && (Json.code c <=? 57)%N.

Definition opens (c : ascii) : bool :=
  (Json.code c =? 91)%N || (Json.code c =? 123)%N.

(** No run of digits of [s] is longer than [bound]; [run] digits have
    just been read. *)
Fixpoint digit_runs_within (bound run : N) (s : string) : bool :=
  match s with
  | EmptyString => true
  | String c s' =>
      if is_digit c
      then (run + 1 <=? bound)%N && digit_runs_within bound (run + 1)%N s'
      else digit_runs_within bound 0%N s'
  end.

Fixpoint count (p : ascii -> bool) (s : string) : N :=
  match s with
  | EmptyString => 0%N
  | String c s' => ((if p c then 1 else 0) + count p s')%N
  end.

Definition within_limits (s : string) : bool :=
  digit_runs_within 4300 0 s && (count opens s <=? 200)%N.

End Limits.

(** ** Models that do not follow a script *)

Module Models.
Import SseClient.

(** A model that gives the same reply to every request. *)
Definition always (reply : string) (l : list string) (_ : list message)
  : result string * list string :=
  (Ok reply, l).

(** The messages a turn adds for the replies [rs] answered by [results]:
    each reply as the assistant, each result as the system. *)
Fixpoint exchange (rs results : list string) : list message :=
  match rs, results with
  | r :: rs', res :: results' =>
      Message "assistant" r :: Message "system" res :: exchange rs' results'
  | _, _ => []
  end.

(** A session whose host raises at the next call. *)
Definition failing_session
  : @SseClient.session (list Host.outcome) (list string) :=
  Session [] [Host.Raised "division by zero"] [] [].

(** The result the handler makes of the outcome of a call of [tool]:
    line 55 for a text item, line 58 with the text of the exception
    otherwise. *)
Definition reply_result (tool : string) (out : Host.outcome) : string :=
  match out with
  | Host.Raised msg => error_message msg
  | Host.Returned _ [] => error_message "list index out of range"
  | Host.Returned _ (Host.OtherContent kind :: _) =>
      error_message ("'" +:+ kind +:+ "' object has no attribute 'text'")
  | Host.Returned _ (Host.TextContent text :: _) => call_message tool text
  end.

(** The host once the calls of [replies] have been issued to it in order,
    and the results of these calls. *)
Fixpoint replay {H : Type}
    (call_tool : H -> string -> Json.json -> Host.outcome * H)
    (h : H) (replies : list tool_reply) : H * list string :=
  match replies with
  | [] => (h, [])
  | c :: rest =>
      let (out, h') := call_tool h (reply_tool c) (reply_args c) in
      let (h'', results) := replay call_tool h' rest in
      (h'', reply_result (reply_tool c) out :: results)
  end.

(** A scripted model that keeps the messages of every request it gets,
    as they are when it is asked. *)
Definition recording (l : list string * list (list message))
    (ms : list message)
  : result string * (list string * list (list message)) :=
  match fst l with
  | r :: rest => (Ok r, (rest, snd l ++ [ms]))
  | [] => (Raise (HostError "no reply"), ([], snd l ++ [ms]))
  end.

(** The requests of a turn that starts from the messages [ms]: one with
    [ms], then one more after each reply and its result. *)
Fixpoint requests (ms : list message) (rs results : list string)
  : list (list message) :=
  ms ::
  match rs, results with
  | r :: rs', res :: results' =>
      requests (ms ++ [Message "assistant" r; Message "system" res])
        rs' results'
  | _, _ => []
  end.

(** The script of two calls and a plain answer, with the recording
    model. *)
Definition recording_session
  : @SseClient.session (list Host.outcome)
      (list string * list (list message)) :=
  Session [Message "system" "rules"]
    [Scenario.text "20797.5"; Scenario.text "20799.5"]
    (List.map reply_text Scenario.two_calls ++ ["plain text"], []) [].

(** A reply that stays clear of the limits of the interpreter, encodes a
    call, and names a tool of the catalog. *)
Definition catalogued_call {H : Type} (list_tools : H -> result (list string))
    (c : tool_reply) : Prop :=
  Limits.within_limits (unfence (reply_text c)) = true /\
  encodes_call c /\ offered list_tools c.

End Models.

(** ** Strings by character

    Where the code slices a [str] or matches it character by character, the
    UTF-8 text is decoded to its code points first. *)

Module Ustr.

(** The code points of a UTF-8 text; [need] continuation bytes are still
    due for the code point whose high bits are [acc]. *)
Fixpoint decode_from (s : string) (need : nat) (acc : N) : list N :=
  match s with
  | EmptyString => []
  | String c s' =>
      let b := Json.code c in
      match need with
      | O =>
          if (b <? 192)%N then b :: decode_from s' 0 0%N
          else if (b <? 224)%N then decode_from s' 1 (b - 192)%N
          else if (b <? 240)%N then decode_from s' 2 (b - 224)%N
          else decode_from s' 3 (b - 240)%N
      | S n =>
          let acc' := (acc * 64 + b mod 64)%N in
          match n with
          | O => acc' :: decode_from s' 0 0%N
          | S _ => decode_from s' n acc'
          end
      end
  end.

Definition decode (s : string) : list N := decode_from s 0 0%N.

Fixpoint encode (l : list N) : string :=
  match l with
  | [] => EmptyString
  | n :: l' => Json.string_of_rev (List.rev (Json.utf8 n)) (encode l')
  end.

(** [str.isspace] on one character. *)
Definition isspace (c : N) : bool :=
  ((9 <=? c) && (c <=? 13))%N || ((28 <=? c) && (c <=? 32))%N
  || (c =? 133)%N || (c =? 160)%N || (c =? 5760)%N
  || ((8192 <=? c) && (c <=? 8202))%N
  || (c =? 8232)%N || (c =? 8233)%N || (c =? 8239)%N || (c =? 8287)%N
  || (c =? 12288)%N.

Fixpoint lstrip (l : list N) : list N :=
  match l with
  | [] => []
  | c :: l' => if isspace c then lstrip l' else l
  end.

Fixpoint rstrip (l : list N) : list N :=
  match l with
  | [] => []
  | c :: l' =>
      match rstrip l' with
      | [] => if isspace c then [] else [c]
      | r => c :: r
      end
  end.

(** [s.strip()] on the characters. *)
Definition strip (l : list N) : list N := rstrip (lstrip l).

(** [c in chars] for a character. *)
Definition among (chars : list N) (c : N) : bool :=
  existsb (N.eqb c) chars.

End Ustr.

(** ** Regular expressions on characters, with numbered groups *)

Module Rx.

Inductive rx : Type :=
| Lit (l : list N)
| Class (p : N -> bool)
| Seq (r1 r2 : rx)
| Alt (r1 r2 : rx)          (* r1|r2, the left one first *)
| Plus (r : rx)             (* r+  greedy *)
| Group (n : nat) (r : rx). (* ( r ), group n *)

Definition captures : Type := nat -> option (list N).

Definition no_capture : captures := fun _ => None.

Definition capture (n : nat) (text : list N) (g : captures) : captures :=
  fun m => if Nat.eqb m n then Some text else g m.

Fixpoint drop_prefix (l s : list N) : option (list N) :=
  match l, s with
  | [], _ => Some s
  | a :: l', b :: s' => if N.eqb a b then drop_prefix l' s' else None
  | _ :: _, [] => None
  end.

(** [mt r s g k]: as [Re.mt], on characters. *)
Fixpoint mt {R : Type} (r : rx) (s : list N) (g : captures)
    (k : list N -> captures -> option R) {struct r} : option R :=
  match r with
  | Lit l =>
      match drop_prefix l s with
      | Some s' => k s' g
      | None => None
      end
  | Class p =>
      match s with
      | c :: s' => if p c then k s' g else None
      | [] => None
      end
  | Seq r1 r2 => mt r1 s g (fun s' g' => mt r2 s' g' k)
  | Alt r1 r2 =>
      match mt r1 s g k with
      | Some x => Some x
      | None => mt r2 s g k
      end
  | Plus r1 =>
      (fix loop (n : nat) (s : list N) (g : captures) {struct n} : option R :=
         match n with
         | O => mt r1 s g k
         | S n' =>
             mt r1 s g (fun s' g' =>
               if (length s' <? length s)%nat then
                 match loop n' s' g' with
                 | Some x => Some x
                 | None => k s' g'
                 end
               else k s' g')
         end) (length s) s g
  | Group n r1 =>
      mt r1 s g (fun s' g' =>
        k s' (capture n (firstn (length s - length s') s) g'))
  end.

(** [re.search(r, s)]: the captures of the leftmost match. *)
Fixpoint search (r : rx) (s : list N) : option captures :=
  match mt r s no_capture (fun _ g => Some g) with
  | Some g => Some g
  | None =>
      match s with
      | [] => None
      | _ :: s' => search r s'
      end
  end.

End Rx.

(** ** client.py: the names derived from a query *)

Module Names.

(** The characters of the class of lines 64 and 107: backslash, slash,
    colon, star, question mark, quotation mark, angle brackets, bar. *)
Definition forbidden : list N := [92; 47; 58; 42; 63; 34; 60; 62; 124]%N.

(** [re.sub] of that class by the empty string. *)
Definition remove_forbidden (text : list N) : list N :=
  List.filter (fun c => negb (Ustr.among forbidden c)) text.

(** The pattern of line 62,
    [(关于|分析|查询|搜索|查看)([^的\s，。？、\n]+)]. *)
Definition trigger : Rx.rx :=
  Rx.Alt (Rx.Lit (Ustr.decode "关于"))
    (Rx.Alt (Rx.Lit (Ustr.decode "分析"))
       (Rx.Alt (Rx.Lit (Ustr.decode "查询"))
          (Rx.Alt (Rx.Lit (Ustr.decode "搜索"))
             (Rx.Lit (Ustr.decode "查看"))))).

Definition keyword_char (c : N) : bool :=
  negb (Ustr.among (Ustr.decode "的，。？、") c || Ustr.isspace c
        || (c =? 10)%N).

Definition keyword_pattern : Rx.rx :=
  Rx.Seq (Rx.Group 1 trigger) (Rx.Group 2 (Rx.Plus (Rx.Class keyword_char))).

(** Line 63.  Group 2 takes part in every match of the pattern. *)
Definition keyword (query : list N) : list N :=
  match Rx.search keyword_pattern query with
  | Some g =>
      match g 2%nat with
      | Some k => k
      | None => []
      end
  | None => Ustr.decode "分析对象"
  end.

(** Line 64. *)
Definition safe_keyword (query : list N) : list N :=
  firstn 20 (remove_forbidden (keyword query)).

(** Lines 105-108. *)
Definition clean_filename (text : list N) : list N :=
  firstn 50 (remove_forbidden (Ustr.strip text)).

(** [os.path.join(a, b)] for two components, POSIX. *)
Definition path_join (a b : string) : string :=
  if PyStr.startswith b "/" then b
  else if String.eqb a "" || PyStr.endswith a "/" then a +:+ b
  else a +:+ "/" +:+ b.

(** Line 66, for the time stamp of line 65. *)
Definition txt_filename (query timestamp : string) : string :=
  "sentiment_" +:+ Ustr.encode (safe_keyword (Ustr.decode query))
    +:+ "_" +:+ timestamp +:+ ".txt".

(** Line 67. *)
Definition txt_path (query timestamp : string) : string :=
  path_join "sentiment_report" (txt_filename query timestamp).

(** Line 69. *)
Definition new_query (query timestamp : string) : string :=
  Ustr.encode (Ustr.strip (Ustr.decode query))
    +:+ " [txt_filename:" +:+ txt_filename query timestamp
    +:+ "] [txt_path:" +:+ txt_path query timestamp +:+ "]".

(** Lines 111-116, for the time stamp of line 112. *)
Definition record_path (query timestamp : string) : string :=
  path_join "./llm_output"
    (Ustr.encode (clean_filename (Ustr.decode query))
       +:+ "_" +:+ timestamp +:+ ".txt").

(** The five words of the first group of the pattern. *)
Definition triggers : list (list N) :=
  List.map Ustr.decode ["关于"; "分析"; "查询"; "搜索"; "查看"].

(** A match whose keyword is not empty and made of keyword characters. *)
Definition good_match (x : option Rx.captures) : Prop :=
  x = None \/
  exists g k, x = Some g /\ g 2%nat = Some k /\ k <> [] /\
              forallb keyword_char k = true.

End Names.

(** ** client.py: the launch of the server, lines 28-35 *)

Module Launch.

(** [s.rfind(c)]: the last index of [c], or -1. *)
Fixpoint rfind_from (s : string) (c : ascii) (i best : Z) : Z :=
  match s with
  | EmptyString => best
  | String x s' =>
      rfind_from s' c (i + 1)%Z (if Ascii.eqb x c then i else best)
  end.

Definition rfind (s : string) (c : ascii) : Z := rfind_from s c 0%Z (-1)%Z.

Fixpoint drop (n : nat) (s : string) : string :=
  match n, s with
  | S n', String _ s' => drop n' s'
  | _, _ => s
  end.

Fixpoint take (n : nat) (s : string) : string :=
  match n, s with
  | S n', String c s' => String c (take n' s')
  | _, _ => EmptyString
  end.

(** The loop of [_splitext] that skips the leading dots of the file name:
    is there a character other than a dot between [filenameIndex] and
    [dotIndex]?  [fuel] bounds the iterations by the length of the path. *)
Fixpoint has_stem (fuel : nat) (p : string) (filenameIndex dotIndex : Z)
  : bool :=
  match fuel with
  | O => false
  | S fuel' =>
      if (filenameIndex <? dotIndex)%Z then
        match drop (Z.to_nat filenameIndex) p with
        | String c _ =>
            if negb (Ascii.eqb c ".") then true
            else has_stem fuel' p (filenameIndex + 1)%Z dotIndex
        | EmptyString => true
        end
      else false
  end.

(** [os.path.splitext(p)], POSIX: the root and the extension. *)
Definition splitext (p : string) : string * string :=
  let sepIndex := rfind p "/" in
  let dotIndex := rfind p "." in
  if (sepIndex <? dotIndex)%Z
     && has_stem (String.length p) p (sepIndex + 1)%Z dotIndex
  then (take (Z.to_nat dotIndex) p, drop (Z.to_nat dotIndex) p)
  else (p, EmptyString).

Inductive launch : Type :=
| ValueError (msg : string)
| Start (command : string) (args : list string).

(** The command and the arguments handed to [StdioServerParameters], or
    the [ValueError] of line 31. *)
Definition server_params (server_script_path : string) : launch :=
  let is_python := String.eqb (snd (splitext server_script_path)) ".py" in
  let is_node := String.eqb (snd (splitext server_script_path)) ".js" in
  if negb is_python && negb is_node
  then ValueError "服务器脚本仅支持python或typescript文件"
  else Start (if is_python then "python" else "node") [server_script_path].

End Launch.

(** ** client.py: [process_query] and [chat_loop] as a whole *)

Module Query.
Import Json Host Client.

Definition strip_text (s : string) : string :=
  Ustr.encode (Ustr.strip (Ustr.decode s)).

Section Query.
Context {W : Type}.
(** The collaborators: the catalog of the session (names and
    descriptions), the clock read through [strftime], the two completion
    requests, the invocation of a tool, the writing of the record (lines
    114-119), and [str] of an exception. *)
Variable list_tools : W -> result (list (string * string)) * W.
Variable now : W -> string * W.
Variable complete : W -> list message -> result string * W.
Variable summarize : W -> list message -> result string * W.
Variable call_tool : W -> json -> list (string * json) -> outcome * W.
Variable write_file : W -> string -> string -> result unit * W.
Variable str_exn : exn -> string.
Variable dumps : list (string * string) -> string.

(** [process_query]: the value returned or the exception raised, and the
    lines printed on the way. *)
Definition process_query (w : W) (query : string)
  : (result string * list string) * W :=
  let (r, w1) := list_tools w in
  match r with
  | Raise e => ((Raise e, []), w1)
  | Ok available_tools =>
      let (timestamp, w2) := now w1 in
      let txt_filename := Names.txt_filename query timestamp in
      let txt_path := Names.txt_path query timestamp in
      let new_query := Names.new_query query timestamp in
      let '((p, printed), w3) :=
        plan_tool_use complete dumps w2 new_query available_tools in
      match p with
      | Raise e => ((Raise e, printed), w3)
      | Ok tool_plan =>
          let (st, e) := run_plan call_tool txt_filename txt_path
                           (initial w3 new_query) tool_plan in
          match e with
          | Some e => ((Raise e, printed), host st)
          | None =>
              let (f, w4) := summarize (host st) (messages st) in
              match f with
              | Raise e => ((Raise e, printed), w4)
              | Ok final_output =>
                  let (timestamp', w5) := now w4 in
                  let file_path := Names.record_path query timestamp' in
                  let (wr, w6) :=
                    write_file w5 file_path
                      ("用户输入：" +:+ query +:+ nl
                       +:+ "模型回复：" +:+ final_output +:+ nl) in
                  match wr with
                  | Raise e => ((Raise e, printed), w6)
                  | Ok _ =>
                      ((Ok final_output,
                        printed ++ ["对话记录已保存到文件：" +:+ file_path]),
                       w6)
                  end
              end
          end
      end
  end.

(** What [chat_loop] shows for an exception. *)
Definition error_line (e : exn) : string := "发生错误：" +:+ str_exn e.

(** Line 125. *)
Definition banner : string := "MCP客户端已启动，输入 'quit' 退出".

(** The loop of line 126 on the lines typed so far: the lines printed,
    whether [quit] was reached, and the world. *)
Fixpoint chat_turns (w : W) (inputs : list string)
  : list string * bool * W :=
  match inputs with
  | [] => ([], false, w)
  | line :: rest =>
      let query := strip_text line in
      if String.eqb query "quit" then ([], true, w)
      else
        let '((r, printed), w') := process_query w query in
        let shown :=
          match r with
          | Ok response => response
          | Raise e => error_line e
          end in
        let '(more, quit, w'') := chat_turns w' rest in
        (printed ++ shown :: more, quit, w'')
  end.

(** [chat_loop]: the banner, then the loop.  The prompts of [input] are
    not lines printed. *)
Definition chat_loop (w : W) (inputs : list string)
  : list string * bool * W :=
  let '(out, quit, w') := chat_turns w inputs in
  (banner :: out, quit, w').

End Query.
End Query.

(** ** fastmcp_sse_client.py: the outer loop of [ChatSession.start] *)

Module SseLoop.
Import Json Host SseClient.

(** [str.lower] on the ASCII letters; other characters are left alone. *)
Definition lower_char (c : ascii) : ascii :=
  let n := code c in
  if (65 <=? n)%N && (n <=? 90)%N then ch (n + 32)%N else c.

Fixpoint lower (s : string) : string :=
  match s with
  | EmptyString => EmptyString
  | String c s' => String (lower_char c) (lower s')
  end.

Definition quit_words : list string := ["quit"; "exit"; "退出"].

(** What [input] yields: a line, or the interrupt of the keyboard. *)
Inductive event : Type :=
| Line (s : string)
| Interrupt.

(** How the loop stands: it has ended on a quit word or on an interrupt,
    an exception has left [start], it waits for the next line, or the inner
    loop has used up its bound. *)
Inductive standing : Type :=
| Quit
| Interrupted
| Crashed (e : exn)
| Waiting
| Running.

(** [st'] has the messages and the calls of [st], and possibly more. *)
Definition extends {H L : Type} (st' st : @session H L) : Prop :=
  (exists ms, messages st' = messages st ++ ms) /\
  (exists cs, calls st' = calls st ++ cs).

Section Start.
Context {H L : Type}.
Variable list_tools : H -> result (list string).
Variable call_tool : H -> string -> json -> outcome * H.
Variable py_str : json -> string.
Variable get_response : L -> list message -> result string * L.

Fixpoint start_loop (fuel : nat) (st : session) (events : list event)
  : @session H L * standing :=
  match events with
  | [] => (st, Waiting)
  | Interrupt :: _ => (st, Interrupted)
  | Line s :: rest =>
      let user_input := lower (Query.strip_text s) in
      if existsb (String.eqb user_input) quit_words then (st, Quit)
      else
        match turn list_tools call_tool py_str get_response fuel st
                user_input with
        | None => (st, Running)
        | Some (st', Some e) => (st', Crashed e)
        | Some (st', None) => start_loop fuel st' rest
        end
  end.

(** [ChatSession.start]: the transcript starts with the system message. *)
Definition start (fuel : nat) (h : H) (l : L) (system_message : string)
    (events : list event) : session * standing :=
  start_loop fuel (Session [Message "system" system_message] h l []) events.

End Start.
End SseLoop.

(** ** server.py: [search_google_news] *)

Module Server.
Import Json.

Inductive failure : Type :=
| ValueError (msg : string)
| Py (e : exn).

Inductive answer : Type :=
| Answer (text : string)
| Failed (f : failure).

Definition no_results : string := "未获取到搜索结果。".

Section News.
Context {W : Type}.
(** The environment, the request of lines 36-38 with the decoding of its
    answer, and lines 42-60 as a whole: the building of the list of
    articles, their dump to a file and the text of the answer. *)
Variable getenv : string -> option string.
Variable post :
  W -> string -> list (string * string) -> json -> result json * W.
Variable report : json -> string -> W -> answer * W.

Definition search_google_news (w : W) (keywords : string) : answer * W :=
  match getenv "SERPER_API_KEY" with
  | None | Some EmptyString =>
      (Failed (ValueError "未找到SERPER_API_KEY环境变量，请在.env文件中设置。"), w)
  | Some api_key =>
      let (r, w1) :=
        post w "https://google.serper.dev/news/"
          [("X-API-KEY", api_key); ("Content-Type", "application/json")]
          (JObj [("q", JStr keywords)]) in
      match r with
      | Raise e => (Failed (Py e), w1)
      | Ok data =>
          match contains data "news" with
          | Raise e => (Failed (Py e), w1)
          | Ok true => (Answer no_results, w1)
          | Ok false =>
              match getitem data "news" with
              | Raise e => (Failed (Py e), w1)
              | Ok news => report news keywords w1
              end
          end
      end
  end.

End News.
End Server.

(** * Properties *)

(** ** The matcher on the pattern of [plan_tool_use] *)

Module ReFacts.
Import Re.

(** Whatever a match returns was returned by its continuation. *)
Lemma mt_closed {R : Type} (P : option R -> Prop) (r : regex) :
  P None ->
  forall s g k, (forall s' g', P (k s' g')) -> P (mt r s g k).
Proof.
  intros HN. induction r as [l|p|r1 IH1 r2 IH2|r1 IH|r1 IH|r1 IH|r1 IH];
    intros s g k Hk; simpl.
  - destruct (drop_prefix l s); auto.
  - destruct s as [|c s']; auto. destruct (p c); auto.
  - apply IH1. intros s' g'. apply IH2, Hk.
  - destruct (mt r1 s g k) eqn:E; auto.
    rewrite <- E. apply IH, Hk.
  - generalize (String.length s) as n. intros n. revert s g.
    induction n as [|n IHn]; intros s g; auto.
    match goal with |- P (match ?m with _ => _ end) =>
      destruct m eqn:E end; auto.
    rewrite <- E. apply IH. intros s' g'.
    destruct (String.length s' <? String.length s)%nat; auto.
  - generalize (String.length s) as n. intros n. revert s g.
    induction n as [|n IHn]; intros s g; auto.
    apply IH. intros s' g'. destruct (k s' g') eqn:E.
    + rewrite <- E. apply Hk.
    + destruct (String.length s' <? String.length s)%nat; auto.
  - apply IH. intros s' g'. apply Hk.
Qed.

(** A greedy repetition never blocks a continuation that succeeds on the
    spot, and neither does an optional item. *)
Lemma mt_star_some {R : Type} (r : regex) s g
    (k : string -> option string -> option R) :
  k s g <> None -> mt (Star r) s g k <> None.
Proof.
  intros Hk. simpl. destruct (String.length s) as [|n]; auto.
  match goal with |- (match ?m with _ => _ end) <> None =>
    destruct m end; [discriminate | assumption].
Qed.

Lemma mt_opt_some {R : Type} (r : regex) s g
    (k : string -> option string -> option R) :
  k s g <> None -> mt (Opt r) s g k <> None.
Proof.
  intros Hk. simpl. destruct (mt r s g k); [discriminate | assumption].
Qed.

(** A trailing [\s*] always lets the match end. *)
Lemma mt_star_class_end (p : ascii -> bool) s g :
  mt (Star (Class p)) s g (fun _ g' => Some g') = Some g.
Proof.
  simpl. generalize (String.length s) as n. intros n. revert s.
  induction n as [|n IHn]; intros s; auto.
  destruct s as [|c s']; auto. destruct (p c); auto.
  destruct (String.length s' <? String.length (String c s'))%nat; auto.
  now rewrite IHn.
Qed.

Lemma take_one c s : take (String.length (String c s) - String.length s)
                       (String c s) = String c EmptyString.
Proof.
  simpl String.length.
  replace (S (String.length s) - String.length s)%nat with 1%nat by lia.
  reflexivity.
Qed.

(** The lazy group followed by [\s*] at the end of the pattern takes
    exactly one character. *)
Lemma mt_lazy_group (p : ascii -> bool) s g :
  mt (Seq (Group (LazyPlus (Class any_char))) (Star (Class p))) s g
     (fun _ g' => Some g')
  = match s with
    | EmptyString => None
    | String c _ => Some (Some (String c EmptyString))
    end.
Proof.
  destruct s as [|c s']; [reflexivity|].
  cbn [mt]. cbn [String.length any_char].
  pose proof (mt_star_class_end p s'
                (Some (take (String.length (String c s') - String.length s')
                         (String c s')))) as E.
  cbn [mt] in E. cbn [String.length] in E |- *. rewrite E.
  f_equal. f_equal. apply take_one.
Qed.

End ReFacts.

(** ** Decoding *)

Module JsonFacts.
Import Json.

Lemma run_fail s : run fail s = fail.
Proof. induction s as [|c s IH]; [reflexivity | exact IH]. Qed.

(** A one-character document is a digit or is rejected. *)
Lemma loads_one_char c :
  loads (String c EmptyString) = Raise JSONDecodeError \/
  exists l, loads (String c EmptyString) = Ok (JNum l).
Proof.
  destruct c as [[] [] [] [] [] [] [] []]; vm_compute;
    solve [left; reflexivity | right; eexists; reflexivity].
Qed.

(** No document starts with a byte outside ASCII. *)
Lemma loads_head_ascii c s v :
  loads (String c s) = Ok v -> (code c <? 128)%N = true.
Proof.
  unfold loads. cbn [run]. destruct c as [b0 b1 b2 b3 b4 b5 b6 b7].
  destruct b7.
  - assert (E : step (MValue false, [])
                  (Ascii b0 b1 b2 b3 b4 b5 b6 true) = fail)
      by (destruct b0, b1, b2, b3, b4, b5, b6; reflexivity).
    rewrite E, run_fail. discriminate.
  - intros _. destruct b0, b1, b2, b3, b4, b5, b6; reflexivity.
Qed.

Lemma loads_empty : loads EmptyString = Raise JSONDecodeError.
Proof. reflexivity. Qed.

End JsonFacts.

(** ** client.py: the plan parser *)

Module ParserFacts.
Import Json Client.

Lemma mt_plan_pattern s g :
  Re.mt plan_pattern s g (fun _ g' => Some g') =
  Re.mt (Re.Opt (Re.Lit "json")) s g (fun s1 g1 =>
    Re.mt (Re.Star (Re.Class PyStr.isspace)) s1 g1 (fun s2 g2 =>
      Re.mt (Re.Seq (Re.Group (Re.LazyPlus (Re.Class Re.any_char)))
               (Re.Star (Re.Class PyStr.isspace))) s2 g2
        (fun _ g' => Some g'))).
Proof. reflexivity. Qed.

Lemma mt_plan_pattern_one_char s g :
  Re.one_char (Re.mt plan_pattern s g (fun _ g' => Some g')).
Proof.
  rewrite mt_plan_pattern.
  apply (ReFacts.mt_closed Re.one_char); [now left|]. intros s1 g1.
  apply (ReFacts.mt_closed Re.one_char); [now left|]. intros s2 g2.
  rewrite ReFacts.mt_lazy_group. destruct s2 as [|c s2'].
  - now left.
  - right. now exists c.
Qed.

Lemma mt_plan_pattern_some c s g :
  Re.mt plan_pattern (String c s) g (fun _ g' => Some g') <> None.
Proof.
  rewrite mt_plan_pattern.
  apply ReFacts.mt_opt_some, ReFacts.mt_star_some.
  rewrite ReFacts.mt_lazy_group. discriminate.
Qed.

(** The search captures one character of any content that is not empty. *)
Lemma search_plan_pattern content :
  match content with
  | EmptyString => Re.search plan_pattern content = None
  | String _ _ =>
      exists c, Re.search plan_pattern content
                = Some (Some (String c EmptyString))
  end.
Proof.
  destruct content as [|c s]; [reflexivity|].
  cbn [Re.search].
  pose proof (mt_plan_pattern_one_char (String c s) None) as [E|[c' E]].
  - now apply mt_plan_pattern_some in E.
  - rewrite E. now exists c'.
Qed.

Lemma json_text_cases content :
  (content = EmptyString /\ json_text content = Some EmptyString) \/
  exists c, json_text content = Some (String c EmptyString).
Proof.
  unfold json_text. pose proof (search_plan_pattern content) as S.
  destruct content as [|c s].
  - left. now rewrite S.
  - right. destruct S as [c' ->]. now exists c'.
Qed.

(** What the parser returns, by the outcome of decoding the extracted
    text. *)
Lemma parse_plan_cases raw :
  (loads_text (json_text (PyStr.strip raw)) = Raise JSONDecodeError /\
   parse_plan raw = ([], [plan_failure (PyStr.strip raw)])) \/
  (exists l, loads_text (json_text (PyStr.strip raw)) = Ok (JNum l) /\
             parse_plan raw = ([], [])).
Proof.
  unfold parse_plan.
  destruct (json_text_cases (PyStr.strip raw)) as [[_ ->]|[c ->]];
    cbn [loads_text].
  - left. rewrite JsonFacts.loads_empty. now split.
  - destruct (JsonFacts.loads_one_char c) as [->|[l ->]].
    + left. now split.
    + right. exists l. now split.
Qed.

End ParserFacts.

(** ** Dictionaries *)

Module DictFacts.
Section DictFacts.
Context {V : Type}.
Implicit Types (d : list (string * V)) (k : string) (v : V).


Lemma get_set_ne k k' v d :
  k <> k' -> Dict.get k' (Dict.set k v d) = Dict.get k' d.
Proof.
  intros Hne. induction d as [|[k0 v0] d IH]; simpl.
  - destruct (String.eqb k' k) eqn:E; auto.
    apply String.eqb_eq in E. congruence.
  - destruct (String.eqb k k0) eqn:E; simpl.
    + apply String.eqb_eq in E. subst k0.
      destruct (String.eqb k' k) eqn:E'; auto.
      apply String.eqb_eq in E'. congruence.
    + now rewrite IH.
Qed.

Lemma get_map_values (f : V -> V) k d :
  Dict.get k (Dict.map_values f d) = option_map f (Dict.get k d).
Proof.
  induction d as [|[k' v'] d IH]; simpl; auto.
  destruct (String.eqb k k'); auto.
Qed.

Lemma mem_false k d : Dict.mem k d = false <-> Dict.get k d = None.
Proof. unfold Dict.mem. destruct (Dict.get k d); split; congruence. Qed.

Lemma mem_true k d v : Dict.get k d = Some v -> Dict.mem k d = true.
Proof. unfold Dict.mem. now intros ->. Qed.
End DictFacts.
End DictFacts.

(** ** client.py: the executor *)

Module ExecFacts.
Import Json Host Client.

Section ExecFacts.
Context {H : Type}.
Variable call_tool : H -> json -> list (string * json) -> outcome * H.
Variables txt_filename txt_path : string.

Local Abbreviation inject_defaults := (inject_defaults txt_filename txt_path).
Local Abbreviation prepare := (prepare txt_filename txt_path).
Local Abbreviation exec_step := (exec_step call_tool txt_filename txt_path).
Local Abbreviation run_plan := (run_plan call_tool txt_filename txt_path).
Local Abbreviation exec_state := (@exec_state H).

Implicit Types (st : exec_state) (step name : json)
  (args : list (string * json)).

(** Injection leaves every key that is present alone. *)
Lemma inject_defaults_present name args k v :
  Dict.get k args = Some v ->
  Dict.get k (inject_defaults name args) = Some v.
Proof.
  intros Hk. unfold Client.inject_defaults.
  assert (H1 : forall key val c,
             Dict.get k (if c && negb (Dict.mem key args)
                         then Dict.set key val args else args) = Some v).
  { intros key val c. destruct c; simpl; auto.
    destruct (Dict.mem key args) eqn:M; simpl; auto.
    apply DictFacts.mem_false in M.
    rewrite DictFacts.get_set_ne; auto. intros <-. congruence. }
  specialize (H1 "filename" (JStr txt_filename)
                (name_is name "analyze_sentiment")).
  revert H1. generalize (if name_is name "analyze_sentiment"
                            && negb (Dict.mem "filename" args)
                         then Dict.set "filename" (JStr txt_filename) args
                         else args).
  intros args1 H1.
  destruct (name_is name "send_email_with_attachment"); simpl; auto.
  destruct (Dict.mem "attachment_path" args1) eqn:M; simpl; auto.
  apply DictFacts.mem_false in M.
  rewrite DictFacts.get_set_ne; auto. intros <-. congruence.
Qed.

Lemma resolve_args_get tool_outputs args k :
  Dict.get k (resolve_args tool_outputs args)
  = option_map (resolve_val tool_outputs) (Dict.get k args).
Proof. apply DictFacts.get_map_values. Qed.

Lemma prepare_present tool_outputs name args k v :
  Dict.get k args = Some v ->
  Dict.get k (prepare tool_outputs name args)
  = Some (resolve_val tool_outputs v).
Proof.
  intros Hk. apply inject_defaults_present.
  now rewrite resolve_args_get, Hk.
Qed.

(** A step whose [name] and [arguments] can be read issues one call,
    whatever the host then answers. *)
Lemma exec_step_calls st step name args :
  getitem step "name" = Ok name ->
  getitem step "arguments" = Ok (JObj args) ->
  calls (fst (exec_step st step))
  = calls st ++ [(name, prepare (tool_outputs st) name args)].
Proof.
  intros Hn Ha. unfold Client.exec_step. rewrite Hn, Ha.
  destruct (call_tool _ _ _) as [out h'].
  destruct out as [msg|e [|[text|kind] items]]; try reflexivity.
  destruct name; reflexivity.
Qed.

Lemma exec_step_returned st step n args isError text items h' :
  getitem step "name" = Ok (JStr n) ->
  getitem step "arguments" = Ok (JObj args) ->
  call_tool (host st) (JStr n) (prepare (tool_outputs st) (JStr n) args)
  = (Returned isError (TextContent text :: items), h') ->
  exec_step st step
  = (ExecState (<[n := text]> (tool_outputs st))
       (messages st ++ [tool_message (JStr n) text]) h'
       (calls st ++ [(JStr n, prepare (tool_outputs st) (JStr n) args)]),
     None).
Proof.
  intros Hn Ha Hc. unfold Client.exec_step. now rewrite Hn, Ha, Hc.
Qed.

Lemma exec_step_raised st step name args msg h' :
  getitem step "name" = Ok name ->
  getitem step "arguments" = Ok (JObj args) ->
  call_tool (host st) name (prepare (tool_outputs st) name args)
  = (Raised msg, h') ->
  exec_step st step
  = (ExecState (tool_outputs st) (messages st) h'
       (calls st ++ [(name, prepare (tool_outputs st) name args)]),
     Some (HostError msg)).
Proof.
  intros Hn Ha Hc. unfold Client.exec_step. now rewrite Hn, Ha, Hc.
Qed.

(** The log only grows. *)
Lemma exec_step_calls_grow st step :
  exists extra, calls (fst (exec_step st step)) = calls st ++ extra.
Proof.
  unfold Client.exec_step.
  destruct (getitem step "name") as [name|e];
    [|exists []; simpl; now rewrite app_nil_r].
  destruct (getitem step "arguments") as [a|e];
    [|exists []; simpl; now rewrite app_nil_r].
  destruct a as [| | | | |args];
    try (exists []; simpl; now rewrite app_nil_r).
  destruct (call_tool _ _ _) as [out h'].
  eexists.
  destruct out as [msg|e [|[text|kind] items]]; try reflexivity.
  destruct name; reflexivity.
Qed.

Lemma run_plan_calls_grow tool_plan : forall st,
  exists extra, calls (fst (run_plan st tool_plan)) = calls st ++ extra.
Proof.
  induction tool_plan as [|step rest IH]; intros st; simpl.
  - exists []. now rewrite app_nil_r.
  - destruct (exec_step_calls_grow st step) as [e1 E1].
    destruct (exec_step st step) as [st' [e|]]; simpl in *.
    + now exists e1.
    + destruct (IH st') as [e2 E2]. exists (e1 ++ e2).
      now rewrite E2, E1, app_assoc.
Qed.

(** A step that completes has issued exactly one call. *)
Lemma exec_step_done_length st step st' :
  exec_step st step = (st', None) ->
  length (calls st') = S (length (calls st)).
Proof.
  unfold Client.exec_step.
  destruct (getitem step "name") as [name|e]; [|discriminate].
  destruct (getitem step "arguments") as [a|e]; [|discriminate].
  destruct a as [| | | | |args]; try discriminate.
  destruct (call_tool _ _ _) as [out h'].
  destruct out as [msg|e [|[text|kind] items]]; try discriminate.
  destruct name; simpl; intros E; inversion E; subst; simpl;
    rewrite length_app; simpl; lia.
Qed.

Lemma run_plan_done_length tool_plan : forall st st',
  run_plan st tool_plan = (st', None) ->
  length (calls st') = (length (calls st) + length tool_plan)%nat.
Proof.
  induction tool_plan as [|step rest IH]; intros st st'; simpl.
  - intros E. inversion E. lia.
  - destruct (exec_step st step) as [st1 [e|]] eqn:E1; [discriminate|].
    intros E. apply IH in E. apply exec_step_done_length in E1. lia.
Qed.

Lemma run_plan_app pre post : forall st st1,
  run_plan st pre = (st1, None) ->
  run_plan st (pre ++ post) = run_plan st1 post.
Proof.
  induction pre as [|step rest IH]; intros st st1; simpl.
  - now intros [= ->].
  - destruct (exec_step st step) as [st' [e|]]; [discriminate|].
    apply IH.
Qed.

(** The call of a step sits in the log at the position of the step. *)
Lemma run_plan_nth_call st pre step post st1 name args :
  run_plan st pre = (st1, None) ->
  getitem step "name" = Ok name ->
  getitem step "arguments" = Ok (JObj args) ->
  calls (fst (run_plan st (pre ++ step :: post)))
    !! (length (calls st) + length pre)%nat
  = Some (name, prepare (tool_outputs st1) name args).
Proof.
  intros Hpre Hn Ha.
  rewrite (run_plan_app _ _ _ _ Hpre).
  rewrite <- (run_plan_done_length _ _ _ Hpre).
  pose proof (exec_step_calls st1 step name args Hn Ha) as E1.
  simpl. destruct (exec_step st1 step) as [st2 [e|]]; simpl in E1.
  - simpl. rewrite E1. now apply list_lookup_middle.
  - destruct (run_plan_calls_grow post st2) as [extra E2].
    rewrite E2, E1, <- app_assoc. now apply list_lookup_middle.
Qed.

End ExecFacts.
End ExecFacts.

(** ** client.py: the claims on the plan parser and the executor *)

Module ClientSpec.
Import Json Host Client Scenario.

(** *** Plan parser *)

(** C1.  The plan text [[{"name": "toolA", "arguments": {}}]] is a JSON
    array of one well-formed step, yet the parser returns the empty plan
    and prints the failure line: the pattern of line 165 captures the
    single character "[" and decoding that raises.  The same text inside a
    code fence fares no better. *)
Theorem parse_plan_drops_well_formed_plan :
  loads plan_text = Ok (JArr [call_step "toolA" []]) /\
  json_text (PyStr.strip plan_text) = Some "[" /\
  parse_plan plan_text = ([], [plan_failure plan_text]) /\
  parse_plan fenced_plan_text = ([], [plan_failure fenced_plan_text]).
Proof. repeat split; vm_compute; reflexivity. Qed.

(** C3.  The planner text [7 days] is not JSON, yet nothing tells the
    caller so: the parser returns the empty plan and prints no line.  The
    pattern of line 165 hands the single character 7 to the decoder, which
    accepts it as a number, and the guard of line 173 turns a value that is
    not a list into the empty plan without a word. *)
Lemma parse_plan_silent_on_digit_text :
  loads "7 days" = Raise JSONDecodeError /\
  json_text (PyStr.strip "7 days") = Some "7" /\
  parse_plan "7 days" = ([], []) /\
  ~ In (plan_failure "7 days") (snd (parse_plan "7 days")).
Proof.
  repeat split; try (vm_compute; reflexivity).
  vm_compute. tauto.
Qed.

(** The parser returns the empty plan for every text. *)
Lemma parse_plan_always_empty (raw : string) : fst (parse_plan raw) = [].
Proof.
  destruct (ParserFacts.parse_plan_cases raw) as [[_ ->]|[l [_ ->]]];
    reflexivity.
Qed.

(** [plan_tool_use] prints its heading and never gets as far as asking
    the model. *)
Lemma plan_tool_use_raises {M : Type}
    (complete : M -> list message -> result string * M)
    (dumps : list (string * string) -> string) (m : M)
    (query : string) (tools : list (string * string)) :
  plan_tool_use complete dumps m query tools
  = ((Raise TypeError, [heading]), m).
Proof. reflexivity. Qed.

(** *** Executor *)

Section Executor.
Context {H : Type}.
Variable call_tool : H -> json -> list (string * json) -> outcome * H.
Variables txt_filename txt_path : string.

Local Abbreviation inject_defaults :=
  (inject_defaults txt_filename txt_path).
Local Abbreviation prepare := (prepare txt_filename txt_path).
Local Abbreviation exec_step := (exec_step call_tool txt_filename txt_path).
Local Abbreviation run_plan := (run_plan call_tool txt_filename txt_path).
Local Abbreviation exec_state := (@exec_state H).

Implicit Types (st : exec_state) (step name : json)
  (args : list (string * json)).

(** C2, amended.  A step whose invocation the host answers with a
    payload whose first content item is text, be the payload flagged as
    an error or not, has that text recorded under the tool name and
    appended as a tool message, and the run goes on with the remaining
    steps.  Every other outcome ends the run with an exception, the call
    logged, no message appended and the remaining steps not executed: the
    exception of an invocation that raises, [IndexError] for a payload
    without content, [AttributeError] for a payload whose first item has
    no text. *)
Theorem run_plan_step_outcome st step rest n args :
  getitem step "name" = Ok (JStr n) ->
  getitem step "arguments" = Ok (JObj args) ->
  let sent := prepare (tool_outputs st) (JStr n) args in
  let aborted h' :=
    ExecState (tool_outputs st) (messages st) h'
      (calls st ++ [(JStr n, sent)]) in
  match call_tool (host st) (JStr n) sent with
  | (Returned _ (TextContent text :: _), h') =>
      run_plan st (step :: rest)
      = run_plan
          (ExecState (<[n := text]> (tool_outputs st))
             (messages st ++ [tool_message (JStr n) text]) h'
             (calls st ++ [(JStr n, sent)])) rest
  | (Raised msg, h') =>
      run_plan st (step :: rest) = (aborted h', Some (HostError msg))
  | (Returned _ [], h') =>
      run_plan st (step :: rest) = (aborted h', Some IndexError)
  | (Returned _ (OtherContent _ :: _), h') =>
      run_plan st (step :: rest) = (aborted h', Some AttributeError)
  end.
Proof.
  intros Hn Ha sent aborted. subst sent aborted.
  destruct (call_tool _ _ _) as [out h'] eqn:E.
  destruct out as [msg|e [|[text|kind] items]].
  - simpl. now rewrite (ExecFacts.exec_step_raised _ _ _ _ _ _ _ _ _ Hn Ha E).
  - cbn [Client.run_plan]. unfold Client.exec_step. rewrite Hn, Ha, E.
    reflexivity.
  - simpl.
    now rewrite (ExecFacts.exec_step_returned _ _ _ _ _ _ _ _ _ _ _ Hn Ha E).
  - cbn [Client.run_plan]. unfold Client.exec_step. rewrite Hn, Ha, E.
    reflexivity.
Qed.





(** C9.  [tool_outputs] is keyed by tool name and the last write wins:
    a step that completes leaves its output text under its tool name,
    whatever was there; and when two steps of one tool are followed by a
    step that refers to that tool, the reference resolves to the output
    of the second. *)
Theorem tool_outputs_last_write_wins :
  (forall st step n args isError text items h',
      getitem step "name" = Ok (JStr n) ->
      getitem step "arguments" = Ok (JObj args) ->
      call_tool (host st) (JStr n)
        (prepare (tool_outputs st) (JStr n) args)
      = (Returned isError (TextContent text :: items), h') ->
      tool_outputs (fst (exec_step st step)) !! n = Some text) /\
  (forall st s1 s2 s3 n args1 args2 e1 e2 t1 t2 i1 i2 h1 h2
          name3 args3 k val,
      getitem s1 "name" = Ok (JStr n) ->
      getitem s1 "arguments" = Ok (JObj args1) ->
      getitem s2 "name" = Ok (JStr n) ->
      getitem s2 "arguments" = Ok (JObj args2) ->
      call_tool (host st) (JStr n)
        (prepare (tool_outputs st) (JStr n) args1)
      = (Returned e1 (TextContent t1 :: i1), h1) ->
      call_tool h1 (JStr n)
        (prepare (<[n := t1]> (tool_outputs st)) (JStr n) args2)
      = (Returned e2 (TextContent t2 :: i2), h2) ->
      getitem s3 "name" = Ok name3 ->
      getitem s3 "arguments" = Ok (JObj args3) ->
      Dict.get k args3 = Some (JStr val) ->
      is_placeholder val = true ->
      PyStr.strip_chars val "{} " = n ->
      exists sent,
        calls (fst (run_plan st [s1; s2; s3]))
          !! (length (calls st) + 2)%nat = Some (name3, sent) /\
        Dict.get k sent = Some (JStr t2)).
Proof.
  split.
  - intros st step n args isError text items h' Hn Ha E.
    rewrite (ExecFacts.exec_step_returned _ _ _ _ _ _ _ _ _ _ _ Hn Ha E).
    simpl. apply lookup_insert_eq.
  - intros st s1 s2 s3 n args1 args2 e1 e2 t1 t2 i1 i2 h1 h2
           name3 args3 k val Hn1 Ha1 Hn2 Ha2 E1 E2 Hn3 Ha3 Hk Hp Hr.
    set (st1 := ExecState (<[n := t1]> (tool_outputs st))
                  (messages st ++ [tool_message (JStr n) t1]) h1
                  (calls st
                     ++ [(JStr n, prepare (tool_outputs st) (JStr n) args1)])).
    set (st2 := ExecState (<[n := t2]> (tool_outputs st1))
                  (messages st1 ++ [tool_message (JStr n) t2]) h2
                  (calls st1
                     ++ [(JStr n, prepare (tool_outputs st1) (JStr n) args2)])).
    assert (R : run_plan st [s1; s2] = (st2, None)).
    { cbn [Client.run_plan].
      rewrite (ExecFacts.exec_step_returned _ _ _ _ _ _ _ _ _ _ _
                 Hn1 Ha1 E1).
      fold st1.
      now rewrite (ExecFacts.exec_step_returned call_tool txt_filename
                     txt_path st1 s2 n args2 e2 t2 i2 h2 Hn2 Ha2 E2). }
    exists (prepare (tool_outputs st2) name3 args3). split.
    + apply (ExecFacts.run_plan_nth_call call_tool txt_filename txt_path
               st [s1; s2] s3 [] st2 name3 args3 R Hn3 Ha3).
    + rewrite (ExecFacts.prepare_present _ _ _ _ _ _ _ Hk).
      simpl. rewrite Hp, Hr. subst st2. simpl.
      now rewrite lookup_insert_eq.
Qed.

End Executor.

(** *** Placeholder resolution *)

Lemma resolve_val_again (tool_outputs : gmap string string) (v : json) :
  (forall n t, tool_outputs !! n = Some t -> is_placeholder t = false) ->
  resolve_val tool_outputs (resolve_val tool_outputs v)
  = resolve_val tool_outputs v.
Proof.
  intros Hout. destruct v as [| | |s| |]; try reflexivity. simpl.
  destruct (is_placeholder s) eqn:P.
  - destruct (tool_outputs !! _) as [t|] eqn:L; [|reflexivity].
    simpl. now rewrite (Hout _ _ L).
  - simpl. now rewrite P.
Qed.

(** C6, as stated, fails: with the output [{{b}}] recorded for tool [a],
    the argument [{{a}}] resolves to [{{b}}], and resolving the result
    again changes it to the null value. *)
Lemma resolve_args_not_idempotent :
  let tool_outputs : gmap string string := {["a" := "{{b}}"]} in
  let args := [("x", JStr "{{a}}")] in
  resolve_args tool_outputs args = [("x", JStr "{{b}}")] /\
  resolve_args tool_outputs (resolve_args tool_outputs args)
  = [("x", JNull)] /\
  resolve_args tool_outputs (resolve_args tool_outputs args)
  <> resolve_args tool_outputs args.
Proof. repeat split; vm_compute; congruence. Qed.

(** C6, amended.  Resolution is one pass over the values; a second
    application changes nothing provided no recorded output has itself the
    form of a placeholder. *)
Theorem resolve_args_idempotent (tool_outputs : gmap string string)
    (args : list (string * json)) :
  (forall n t, tool_outputs !! n = Some t -> is_placeholder t = false) ->
  resolve_args tool_outputs (resolve_args tool_outputs args)
  = resolve_args tool_outputs args.
Proof.
  intros Hout. unfold resolve_args, Dict.map_values.
  rewrite List.map_map. apply List.map_ext. intros [k v]. simpl.
  now rewrite resolve_val_again.
Qed.

(** *** The properties at work *)

Local Abbreviation host_of := (@script_host json (list (string * json))).
Local Abbreviation run := (run_plan host_of "f.txt" "report/f.txt").
Local Abbreviation step_of := (exec_step host_of "f.txt" "report/f.txt").

(** C2, as stated, fails when the invocation raises: the run of
    [badTool], [goodTool] ends with the exception of the first call, and
    [goodTool] is not called. *)
Lemma run_plan_aborts_on_raise :
  let r := run (initial [Raised "boom"; text "done"] "q") bad_good_plan in
  snd r = Some (HostError "boom") /\
  calls (fst r) = [(JStr "badTool", [])] /\
  host (fst r) = [text "done"] /\
  messages (fst r) = [Client.Message "user" None "q"].
Proof. repeat split. Qed.

Lemma run_plan_step_outcome_witness :
  let r := run (initial [failure "Unknown tool: badTool"; text "done"] "q")
             bad_good_plan in
  snd r = None /\
  calls (fst r) = [(JStr "badTool", []); (JStr "goodTool", [])] /\
  List.map Client.content (messages (fst r))
  = ["q"; "Unknown tool: badTool"; "done"] /\
  tool_outputs (fst r) !! "badTool" = Some "Unknown tool: badTool".
Proof.
  pose proof (run_plan_step_outcome host_of "f.txt" "report/f.txt"
                (initial [failure "Unknown tool: badTool"; text "done"] "q")
                (call_step "badTool" []) [call_step "goodTool" []]
                "badTool" [] eq_refl eq_refl) as P.
  cbv zeta in P. unfold bad_good_plan.
  match type of P with match ?x with _ => _ end =>
    change x with (failure "Unknown tool: badTool", [text "done"]) in P
  end.
  cbv iota beta in P. cbv zeta. rewrite P. repeat split.
Defined.



Lemma resolve_args_idempotent_witness :
  let tool_outputs : gmap string string := {["toolA" := "{ 42 }"]} in
  let args := [("x", JStr "{{toolA}}"); ("y", JNum "1")] in
  resolve_args tool_outputs args = [("x", JStr "{ 42 }"); ("y", JNum "1")] /\
  resolve_args tool_outputs (resolve_args tool_outputs args)
  = resolve_args tool_outputs args.
Proof.
  split; [reflexivity|].
  apply resolve_args_idempotent. intros n t Hl.
  apply lookup_singleton_Some in Hl as [_ <-]. reflexivity.
Defined.


Lemma tool_outputs_last_write_wins_witness :
  tool_outputs
    (fst (step_of (ExecState {["toolA" := "old"]} [] [text "new"] [])
            (call_step "toolA" []))) !! "toolA" = Some "new" /\
  exists sent,
    calls (fst (run (initial [text "1"; text "2"; text "ok"] "q")
                  twice_plan)) !! 2%nat = Some (JStr "toolB", sent) /\
    Dict.get "x" sent = Some (JStr "2").
Proof.
  destruct (tool_outputs_last_write_wins host_of "f.txt" "report/f.txt")
    as [Hwrite Href].
  split.
  - exact (Hwrite (ExecState {["toolA" := "old"]} [] [text "new"] [])
             (call_step "toolA" []) "toolA" [] false "new" [] []
             eq_refl eq_refl eq_refl).
  - exact (Href (initial [text "1"; text "2"; text "ok"] "q")
             (call_step "toolA" []) (call_step "toolA" [])
             (call_step "toolB" [("x", JStr "{{toolA}}")])
             "toolA" [] [] false false "1" "2" [] [] [text "2"; text "ok"]
             [text "ok"] (JStr "toolB") [("x", JStr "{{toolA}}")] "x"
             "{{toolA}}" eq_refl eq_refl eq_refl eq_refl eq_refl eq_refl
             eq_refl eq_refl eq_refl eq_refl eq_refl).
Defined.

End ClientSpec.

(** ** fastmcp_sse_client.py: the claims on the iterative session *)

Module SseSpec.
Import Json Host SseClient Scenario Models Limits.

Section Session.
Context {H : Type}.
Variable list_tools : H -> result (list string).
Variable call_tool : H -> string -> json -> outcome * H.
Variable py_str : json -> string.

Local Abbreviation session := (@session H (list string)).
Local Abbreviation process :=
  (process_llm_response (L := list string) list_tools call_tool py_str).
Local Abbreviation tool_loop :=
  (tool_loop list_tools call_tool py_str scripted).
Local Abbreviation turn := (turn list_tools call_tool py_str scripted).
Local Abbreviation called := (called (L := list string) call_tool).
Local Abbreviation offered := (offered list_tools).

Implicit Types (st : session) (c : tool_reply).

(** A reply that decodes starts with an ASCII character. *)
Lemma reply_head r v :
  loads (unfence r) = Ok v ->
  exists a s, r = String a s /\ (code a <? 128)%N = true.
Proof.
  unfold unfence. destruct (PyStr.startswith r "```json") eqn:F.
  - intros _. destruct r as [|a s]; cbn [PyStr.startswith] in F;
      [discriminate|].
    apply andb_prop in F as [F _]. apply Ascii.eqb_eq in F. subst a.
    now exists "`"%char, s.
  - destruct r as [|a s]; [intros E; discriminate E|]. intros E.
    exists a, s. split; [reflexivity|].
    now apply JsonFacts.loads_head_ascii in E.
Qed.

Lemma known_in ts name : In name ts -> known ts (JStr name) = true.
Proof.
  intros Hin. apply existsb_exists. exists name. split; [exact Hin|].
  apply String.eqb_refl.
Qed.

(** The reply that encodes a call of an offered tool issues that call
    and is answered with a message that differs from the reply. *)
Lemma process_call st c :
  encodes_call c -> offered c ->
  exists res, process st (reply_text c) = (Ok res, called st c) /\
              res <> reply_text c.
Proof.
  intros (d & El & Gt & Ga) Hoff.
  destruct (Hoff (host st)) as (ts & Et & Hin).
  destruct (reply_head _ _ El) as (a & s & Er & Ha).
  assert (Hne : forall b s', (code b <? 128)%N = false ->
                             String b s' <> reply_text c).
  { intros b s' Hb E. assert (b = a) by congruence. congruence. }
  unfold SseClient.process_llm_response. rewrite El. cbn [contains].
  rewrite (DictFacts.mem_true _ _ _ Gt), (DictFacts.mem_true _ _ _ Ga).
  rewrite Et. cbn [getitem]. rewrite Gt. rewrite (known_in _ _ Hin).
  unfold invoke, SseClient.called. cbn [getitem format]. rewrite Ga.
  destruct (call_tool _ _ _) as [out h'].
  destruct out as [msg|e [|[text|kind] items]]; cbn [snd];
    eexists; (split; [reflexivity|]); apply Hne; reflexivity.
Qed.

(** A plain reply comes back unchanged and nothing is called. *)
Lemma process_plain st t :
  plain_reply t -> process st t = (Ok t, st).
Proof.
  intros [F D]. unfold SseClient.process_llm_response, unfence.
  rewrite F. destruct D as [->|(v & -> & [->|[-> ->]])]; reflexivity.
Qed.

(** C10.  The reply [5] decodes to a number, the membership test on a
    number raises [TypeError], and only [JSONDecodeError] is caught: the
    exception leaves [process_llm_response] instead of the reply being
    returned. *)
Theorem process_llm_response_scalar_reply_raises st :
  loads "5" = Ok (JNum "5") /\
  process st "5" = (Raise TypeError, st).
Proof. split; reflexivity. Qed.

(** A fenced reply that is not a call comes back without its fence and
    without the characters the two [strip] calls removed. *)
Lemma process_llm_response_fenced_text st :
  process st "```json hello" = (Ok "hell", st).
Proof. reflexivity. Qed.

End Session.

(** *** The calls of a scripted turn *)

Section Replay.
Context {H L : Type}.
Variable list_tools : H -> result (list string).
Variable call_tool : H -> string -> json -> outcome * H.
Variable py_str : json -> string.

Local Abbreviation process :=
  (process_llm_response (L := L) list_tools call_tool py_str).
Local Abbreviation called := (called (L := L) call_tool).
Local Abbreviation offered := (offered list_tools).

Implicit Types (st : @session H L) (c : tool_reply).

(** The reply that encodes a call of an offered tool issues that call to
    the host, and is answered with the result made of the outcome, which
    differs from the reply. *)
Lemma process_call_result st c :
  encodes_call c -> offered c ->
  let result :=
    reply_result (reply_tool c)
      (fst (call_tool (host st) (reply_tool c) (reply_args c))) in
  process st (reply_text c) = (Ok result, called st c) /\
  result <> reply_text c.
Proof.
  intros (d & El & Gt & Ga) Hoff.
  destruct (Hoff (host st)) as (ts & Et & Hin).
  destruct (reply_head _ _ El) as (a & s & Er & Ha).
  assert (Hne : forall b s', (code b <? 128)%N = false ->
                             String b s' <> reply_text c).
  { intros b s' Hb E. assert (b = a) by congruence. congruence. }
  unfold SseClient.process_llm_response. rewrite El. cbn [contains].
  rewrite (DictFacts.mem_true _ _ _ Gt), (DictFacts.mem_true _ _ _ Ga).
  rewrite Et. cbn [getitem]. rewrite Gt. rewrite (known_in _ _ Hin).
  unfold invoke, SseClient.called. cbn [getitem format]. rewrite Ga.
  destruct (call_tool _ _ _) as [out h'].
  destruct out as [msg|e [|[text|kind] items]]; cbn [fst snd reply_result];
    (split; [reflexivity|]); apply Hne; reflexivity.
Qed.

(** A plain reply comes back unchanged and nothing is called, whatever
    the model. *)
Lemma process_plain_reply st t :
  plain_reply t -> process st t = (Ok t, st).
Proof.
  intros [F D]. unfold SseClient.process_llm_response, unfence.
  rewrite F. destruct D as [->|(v & -> & [->|[-> ->]])]; reflexivity.
Qed.

Lemma replay_cons h c rest :
  replay call_tool h (c :: rest)
  = (fst (replay call_tool
            (snd (call_tool h (reply_tool c) (reply_args c))) rest),
     reply_result (reply_tool c)
       (fst (call_tool h (reply_tool c) (reply_args c)))
     :: snd (replay call_tool
               (snd (call_tool h (reply_tool c) (reply_args c))) rest)).
Proof.
  cbn [replay]. destruct (call_tool h _ _) as [out h']. cbn [fst snd].
  now destruct (replay call_tool h' rest).
Qed.

End Replay.

Section Script.
Context {H : Type}.
Variable list_tools : H -> result (list string).
Variable call_tool : H -> string -> json -> outcome * H.
Variable py_str : json -> string.

Local Abbreviation session := (@session H (list string)).
Local Abbreviation tool_loop :=
  (tool_loop list_tools call_tool py_str scripted).
Local Abbreviation turn := (turn list_tools call_tool py_str scripted).
Local Abbreviation replay := (replay call_tool).

Implicit Types (st : session) (c : tool_reply).

Lemma tool_loop_replay (rest : list tool_reply) (t : string) :
  Forall (catalogued_call list_tools) rest ->
  plain_reply t ->
  forall fuel st r res,
    res <> r ->
    llm st = List.map reply_text rest ++ [t] ->
    (length rest < fuel)%nat ->
    tool_loop fuel st r res
    = Some (Session
              (messages st
                 ++ Message "assistant" r :: Message "system" res
                    :: exchange (List.map reply_text rest)
                         (snd (replay (host st) rest))
                 ++ [Message "assistant" t])
              (fst (replay (host st) rest)) []
              (calls st
                 ++ List.map (fun c => (reply_tool c, reply_args c)) rest),
            None).
Proof.
  intros Hrest Ht. induction Hrest as [|c rest (_ & Hc & Ho) _ IH];
    intros fuel st r res Hne Hl Hf.
  - destruct fuel as [|fuel]; [simpl in Hf; lia|].
    cbn [SseClient.tool_loop].
    apply String.eqb_neq in Hne. rewrite Hne.
    unfold ask, say. cbn [llm messages host calls]. rewrite Hl.
    cbn [List.map app scripted]. rewrite (process_plain _ _ _ _ _ Ht).
    cbn [Models.replay fst snd exchange List.map].
    rewrite app_nil_r.
    destruct fuel; cbn [SseClient.tool_loop]; rewrite String.eqb_refl;
      unfold say; cbn [llm messages host calls];
      now rewrite <- app_assoc.
  - destruct fuel as [|fuel]; [simpl in Hf; lia|].
    cbn [SseClient.tool_loop].
    apply String.eqb_neq in Hne. rewrite Hne.
    unfold ask, say. cbn [llm messages host calls]. rewrite Hl.
    cbn [List.map app scripted].
    match goal with |- context [process_llm_response _ _ _ ?s (reply_text c)] =>
      destruct (process_call_result list_tools call_tool py_str s c Hc Ho)
        as (-> & Hne') end.
    simpl in Hf.
    rewrite IH; [|exact Hne'|reflexivity|lia].
    rewrite replay_cons.
    cbn [SseClient.called messages host calls fst snd exchange List.map].
    now rewrite <- !app_assoc.
Qed.

(** C8, amended.  With the model scripted to reply with the calls
    [replies], each naming a tool of the catalog, and then with the plain
    text [t], a turn ends, and the state it ends in is known in full.  The
    host has been through exactly the calls of [replies], in order, and
    the log holds them and no other; each reply stands in the transcript
    as an assistant message directly followed by the result of its call as
    a system message, on which the model was asked again; [t] is the last
    message, recorded as the answer of the assistant, and every reply of
    the script has been used.  For two calls followed by plain text that
    is exactly two invocations. *)
Theorem iterative_turn_script (replies : list tool_reply) (t : string)
    (fuel : nat) st (user_input : string) :
  Forall (catalogued_call list_tools) replies ->
  within_limits t = true ->
  plain_reply t ->
  llm st = List.map reply_text replies ++ [t] ->
  (length replies <= fuel)%nat ->
  turn fuel st user_input
  = Some (Session
            (messages st
               ++ Message "user" user_input
                  :: exchange (List.map reply_text replies)
                       (snd (replay (host st) replies))
               ++ [Message "assistant" t])
            (fst (replay (host st) replies)) []
            (calls st
               ++ List.map (fun c => (reply_tool c, reply_args c)) replies),
          None).
Proof.
  intros Hrep _ Ht Hl Hf. unfold SseClient.turn, ask, say.
  cbn [llm messages host calls]. rewrite Hl.
  destruct Hrep as [|c rest (_ & Hc & Ho) Hrest].
  - cbn [List.map app scripted]. rewrite (process_plain _ _ _ _ _ Ht).
    cbn [Models.replay fst snd exchange List.map].
    rewrite app_nil_r.
    destruct fuel; cbn [SseClient.tool_loop]; rewrite String.eqb_refl;
      unfold say; cbn [llm messages host calls];
      now rewrite <- app_assoc.
  - cbn [List.map app scripted].
    match goal with |- context [process_llm_response _ _ _ ?s (reply_text c)] =>
      destruct (process_call_result list_tools call_tool py_str s c Hc Ho)
        as (-> & Hne') end.
    simpl in Hf.
    rewrite (tool_loop_replay rest t Hrest Ht); [|exact Hne'|reflexivity|lia].
    rewrite replay_cons.
    cbn [SseClient.called messages host calls fst snd exchange List.map].
    now rewrite <- !app_assoc.
Qed.

End Script.

(** *** The scripts at work *)

(** C8, as stated, fails on a reply that names a tool the catalog lacks.
    The script is two replies that decode to objects with the keys tool
    and arguments, then plain text; the first names [power], which the
    catalog does not hold.  The turn ends with the plain text, after one
    invocation, not two: the first reply is answered with the no-such-tool
    message and the host is not called for it. *)
Lemma turn_skips_uncatalogued_tool :
  (exists d, loads (tool_call_text "power" "2" "8") = Ok (JObj d) /\
             Dict.mem "tool" d = true /\ Dict.mem "arguments" d = true) /\
  exists st',
    turn catalog (@script_host string json) no_str scripted 3
      power_session "2 ** 8 + 2"
    = Some (st', None) /\
    calls st' = [("add", JObj [("a", JNum "256"); ("b", JNum "2")])] /\
    host st' = [text "spare"] /\
    List.map content (messages st')
    = ["rules"; "2 ** 8 + 2";
       tool_call_text "power" "2" "8"; missing_message "power";
       tool_call_text "add" "256" "2"; call_message "add" "258";
       "plain text"].
Proof.
  split.
  - eexists. repeat split; vm_compute; reflexivity.
  - eexists. split; [vm_compute; reflexivity|]. repeat split.
Qed.

Lemma iterative_turn_script_witness :
  turn catalog (@script_host string json) no_str scripted 2
    scripted_session "88.5 * 235 + 2"
  = Some (Session
            [Message "system" "rules"; Message "user" "88.5 * 235 + 2";
             Message "assistant" (tool_call_text "multiply" "88.5" "235");
             Message "system" (call_message "multiply" "20797.5");
             Message "assistant" (tool_call_text "add" "20797.5" "2");
             Message "system" (call_message "add" "20799.5");
             Message "assistant" "plain text"]
            [] []
            [("multiply", JObj [("a", JNum "88.5"); ("b", JNum "235")]);
             ("add", JObj [("a", JNum "20797.5"); ("b", JNum "2")])],
          None).
Proof.
  apply (iterative_turn_script catalog (@script_host string json) no_str
           two_calls "plain text" 2 scripted_session "88.5 * 235 + 2").
  - repeat constructor.
    + eexists. repeat split; vm_compute; reflexivity.
    + intros h. eexists. split; [reflexivity|]. simpl. tauto.
    + eexists. repeat split; vm_compute; reflexivity.
    + intros h. eexists. split; [reflexivity|]. simpl. tauto.
  - reflexivity.
  - split; [reflexivity|]. left. reflexivity.
  - reflexivity.
  - simpl. lia.
Defined.

End SseSpec.


(** ** Stripping *)

Module TextFacts.
Import Shape.

Lemma append_nil_l b : EmptyString +:+ b = b.
Proof. reflexivity. Qed.

Lemma append_cons x a b : String x a +:+ b = String x (a +:+ b).
Proof. reflexivity. Qed.

Lemma append_nil_r s : s +:+ EmptyString = s.
Proof.
  induction s as [|c s IH]; [reflexivity|]. rewrite append_cons. now f_equal.
Qed.

Lemma append_assoc a b c : (a +:+ b) +:+ c = a +:+ b +:+ c.
Proof.
  induction a as [|x a IH]; [reflexivity|].
  rewrite !append_cons. now f_equal.
Qed.

Lemma append_empty a b : a +:+ b = EmptyString -> a = EmptyString /\ b = EmptyString.
Proof.
  destruct a; [rewrite append_nil_l; now intros -> | discriminate].
Qed.

Lemma first_char_app a b :
  first_char (a +:+ b)
  = match first_char a with Some c => Some c | None => first_char b end.
Proof. destruct a; reflexivity. Qed.

Lemma last_char_cons s : forall x, last_char (String x s) <> None.
Proof.
  induction s as [|y s IH]; intros x; [discriminate|].
  change (last_char (String y s) <> None). apply IH.
Qed.

Lemma last_char_app a b :
  last_char (a +:+ b)
  = match last_char b with Some c => Some c | None => last_char a end.
Proof.
  induction a as [|x a IH].
  - rewrite append_nil_l. now destruct (last_char b).
  - rewrite append_cons. cbn [last_char].
    destruct (a +:+ b) as [|y t] eqn:E.
    + apply append_empty in E as [-> ->]. reflexivity.
    + rewrite IH. destruct (last_char b) as [c|] eqn:Lb; [reflexivity|].
      destruct a as [|z a]; [|reflexivity].
      rewrite append_nil_l in E. subst b. now apply last_char_cons in Lb.
Qed.

Lemma all_chars_first p s c :
  all_chars p s = true -> first_char s = Some c -> p c = true.
Proof.
  destruct s as [|x s]; [discriminate|]. simpl.
  intros Hp [= <-]. now apply andb_prop in Hp as [Hp _].
Qed.

Lemma all_chars_last p s c :
  all_chars p s = true -> last_char s = Some c -> p c = true.
Proof.
  induction s as [|x s IH]; [discriminate|]. simpl.
  intros Hp. apply andb_prop in Hp as [Hx Hs].
  destruct s; [now intros [= <-] | now apply IH].
Qed.

Lemma lstrip_pad p l s :
  all_chars p l = true -> PyStr.lstrip_by p (l +:+ s) = PyStr.lstrip_by p s.
Proof.
  induction l as [|c l IH]; [reflexivity|]. cbn [all_chars].
  intros Hp. apply andb_prop in Hp as [Hc Hl].
  rewrite append_cons. cbn [PyStr.lstrip_by]. rewrite Hc. now apply IH.
Qed.

Lemma lstrip_first p s :
  (forall c, first_char s = Some c -> p c = false) ->
  PyStr.lstrip_by p s = s.
Proof.
  destruct s as [|c s]; [reflexivity|]. simpl. intros Hf.
  now rewrite (Hf c eq_refl).
Qed.

Lemma rstrip_all p r : all_chars p r = true -> PyStr.rstrip_by p r = EmptyString.
Proof.
  induction r as [|c r IH]; simpl; [reflexivity|].
  intros Hp. apply andb_prop in Hp as [-> Hr]. now rewrite IH.
Qed.

Lemma rstrip_pad p s r :
  all_chars p r = true -> PyStr.rstrip_by p (s +:+ r) = PyStr.rstrip_by p s.
Proof.
  intros Hr. induction s as [|c s IH].
  - rewrite append_nil_l. now apply rstrip_all.
  - rewrite append_cons. cbn [PyStr.rstrip_by]. now rewrite IH.
Qed.

Lemma rstrip_last p s :
  (forall c, last_char s = Some c -> p c = false) ->
  PyStr.rstrip_by p s = s.
Proof.
  induction s as [|c s IH]; [reflexivity|]. intros Hl.
  cbn [PyStr.rstrip_by]. destruct s as [|d s].
  - simpl. now rewrite (Hl c eq_refl).
  - rewrite IH by (intros x Hx; now apply Hl). reflexivity.
Qed.

Lemma edges_outside_first p s c :
  edges_outside p s = true -> first_char s = Some c -> p c = false.
Proof.
  unfold edges_outside. intros He F. rewrite F in He.
  destruct (last_char s); [|discriminate].
  apply andb_prop in He as [He _]. now apply negb_true_iff in He.
Qed.

Lemma edges_outside_last p s c :
  edges_outside p s = true -> last_char s = Some c -> p c = false.
Proof.
  unfold edges_outside. intros He L. rewrite L in He.
  destruct (first_char s); [|discriminate].
  apply andb_prop in He as [_ He]. now apply negb_true_iff in He.
Qed.

(** Stripping removes the padding on both sides and stops at the edges of
    the body. *)
Lemma strip_by_pad p l body r :
  all_chars p l = true -> all_chars p r = true ->
  edges_outside p body = true ->
  PyStr.strip_by p (l +:+ body +:+ r) = body.
Proof.
  intros Hl Hr He. unfold PyStr.strip_by.
  rewrite (lstrip_pad _ _ _ Hl).
  rewrite lstrip_first.
  - rewrite (rstrip_pad _ _ _ Hr). apply rstrip_last.
    intros c. now apply edges_outside_last.
  - intros c. rewrite first_char_app.
    destruct (first_char body) as [a|] eqn:F.
    + intros [= <-]. now apply (edges_outside_first p body).
    + unfold edges_outside in He. now rewrite F in He.
Qed.

Lemma strip_by_id p s : edges_outside p s = true -> PyStr.strip_by p s = s.
Proof.
  intros He.
  pose proof (strip_by_pad p EmptyString s EmptyString eq_refl eq_refl He) as E.
  now rewrite append_nil_l, append_nil_r in E.
Qed.

Lemma edges_outside_weaken (p q : ascii -> bool) s :
  (forall c, q c = true -> p c = true) ->
  edges_outside p s = true -> edges_outside q s = true.
Proof.
  intros Hpq. unfold edges_outside.
  destruct (first_char s) as [a|]; [|discriminate].
  destruct (last_char s) as [b|]; [|discriminate].
  intros He. apply andb_prop in He as [Ha Hb].
  apply negb_true_iff in Ha, Hb.
  destruct (q a) eqn:Qa; [apply Hpq in Qa; congruence|].
  destruct (q b) eqn:Qb; [apply Hpq in Qb; congruence|]. reflexivity.
Qed.

(** Padding made of characters outside [q] keeps the edges outside [q]. *)
Lemma edges_outside_pad (q w : ascii -> bool) l body r :
  (forall c, w c = true -> q c = false) ->
  all_chars w l = true -> all_chars w r = true ->
  edges_outside q body = true ->
  edges_outside q (l +:+ body +:+ r) = true.
Proof.
  intros Hwq Hl Hr He.
  assert (Qa : forall a, first_char body = Some a -> q a = false)
    by (intros a; now apply edges_outside_first).
  assert (Qb : forall b, last_char body = Some b -> q b = false)
    by (intros b; now apply edges_outside_last).
  assert (Ql : forall x, first_char l = Some x -> q x = false)
    by (intros x Hx; apply Hwq; now apply (all_chars_first w l)).
  assert (Qr : forall y, last_char r = Some y -> q y = false)
    by (intros y Hy; apply Hwq; now apply (all_chars_last w r)).
  unfold edges_outside in He |- *.
  rewrite first_char_app, last_char_app, first_char_app, last_char_app.
  destruct (first_char body) as [a|]; [|discriminate].
  destruct (last_char body) as [b|]; [|discriminate].
  destruct (first_char l) as [x|]; destruct (last_char r) as [y|];
    rewrite ?(Qa _ eq_refl), ?(Qb _ eq_refl), ?(Ql _ eq_refl),
            ?(Qr _ eq_refl); reflexivity.
Qed.

End TextFacts.

(** ** client.py: further properties of the executor *)

Module ExecExtra.
Import Json Host Client Scenario Shape.

(** *** Placeholder syntax *)

Lemma all_chars_app p a b :
  all_chars p (a +:+ b) = all_chars p a && all_chars p b.
Proof.
  induction a as [|x a IH]; [reflexivity|].
  rewrite TextFacts.append_cons. cbn [all_chars]. rewrite IH.
  now rewrite andb_assoc.
Qed.

Lemma rev_onto_app a : forall acc, PyStr.rev_onto a acc = PyStr.rev a +:+ acc.
Proof.
  unfold PyStr.rev. induction a as [|x a IH]; intros acc; [reflexivity|].
  cbn [PyStr.rev_onto]. rewrite IH, (IH (String x EmptyString)).
  now rewrite TextFacts.append_assoc.
Qed.

Lemma rev_append a b : PyStr.rev (a +:+ b) = PyStr.rev b +:+ PyStr.rev a.
Proof.
  induction a as [|x a IH].
  - rewrite TextFacts.append_nil_l. now rewrite TextFacts.append_nil_r.
  - rewrite TextFacts.append_cons. unfold PyStr.rev at 1 3.
    cbn [PyStr.rev_onto]. rewrite !rev_onto_app, IH.
    now rewrite TextFacts.append_assoc.
Qed.

Lemma startswith_append p s : PyStr.startswith (p +:+ s) p = true.
Proof.
  induction p as [|x p IH]; [now destruct s|].
  rewrite TextFacts.append_cons. cbn [PyStr.startswith].
  now rewrite Ascii.eqb_refl, IH.
Qed.

Lemma endswith_append s suffix : PyStr.endswith (s +:+ suffix) suffix = true.
Proof. unfold PyStr.endswith. rewrite rev_append. apply startswith_append. Qed.

Lemma braces_are_placeholder (mid : string) :
  is_placeholder ("{{" +:+ mid +:+ "}}") = true.
Proof.
  unfold is_placeholder. apply andb_true_intro. split.
  - apply (startswith_append "{{").
  - rewrite <- TextFacts.append_assoc. apply endswith_append.
Qed.

Lemma braces_strip (l name r : string) :
  all_chars brace_or_space l = true ->
  all_chars brace_or_space r = true ->
  edges_outside brace_or_space name = true ->
  PyStr.strip_chars ("{{" +:+ l +:+ name +:+ r +:+ "}}") "{} " = name.
Proof.
  intros Hl Hr He. unfold PyStr.strip_chars.
  replace ("{{" +:+ l +:+ name +:+ r +:+ "}}")
    with (("{{" +:+ l) +:+ name +:+ (r +:+ "}}"))
    by (now rewrite !TextFacts.append_assoc).
  apply (TextFacts.strip_by_pad brace_or_space); [| |exact He].
  - rewrite all_chars_app. now rewrite Hl.
  - rewrite all_chars_app. now rewrite Hr.
Qed.

(** X4.  A value written [{{], padding, the tool name, padding, [}}] is a
    placeholder and refers to exactly that name, for every name that is not
    empty and neither begins nor ends with a brace or a space. *)
Theorem placeholder_names_its_tool (l name r : string) :
  all_chars brace_or_space l = true ->
  all_chars brace_or_space r = true ->
  edges_outside brace_or_space name = true ->
  let val := "{{" +:+ l +:+ name +:+ r +:+ "}}" in
  is_placeholder val = true /\ PyStr.strip_chars val "{} " = name.
Proof.
  intros Hl Hr He val. subst val. split.
  - replace (l +:+ name +:+ r +:+ "}}") with ((l +:+ name +:+ r) +:+ "}}")
      by (now rewrite !TextFacts.append_assoc).
    apply braces_are_placeholder.
  - now apply braces_strip.
Qed.

Lemma placeholder_names_its_tool_witness :
  is_placeholder "{{ search_google_news }}" = true /\
  PyStr.strip_chars "{{ search_google_news }}" "{} " = "search_google_news".
Proof.
  exact (placeholder_names_its_tool " " "search_google_news" " "
           eq_refl eq_refl eq_refl).
Defined.

Section Executor.
Context {H : Type}.
Variable call_tool : H -> json -> list (string * json) -> outcome * H.
Variables txt_filename txt_path : string.

Local Abbreviation prepare := (prepare txt_filename txt_path).
Local Abbreviation exec_step := (exec_step call_tool txt_filename txt_path).
Local Abbreviation run_plan := (run_plan call_tool txt_filename txt_path).
Local Abbreviation exec_state := (@exec_state H).

Implicit Types (st : exec_state) (step name : json)
  (args : list (string * json)).

(** *** Steps that cannot be read *)

(** X1.  A step that cannot be read ends the run before the host is asked:
    a step that is not an object raises [TypeError], an object without
    [name] or without [arguments] raises [KeyError], and [arguments] that
    are not an object raise [AttributeError].  The state is the one before
    the step and the steps after it are not executed. *)
Theorem run_plan_unreadable_step st step rest :
  ((forall d, step <> JObj d) ->
   run_plan st (step :: rest) = (st, Some TypeError)) /\
  (forall d, step = JObj d ->
     Dict.get "name" d = None \/ Dict.get "arguments" d = None ->
     run_plan st (step :: rest) = (st, Some KeyError)) /\
  (forall d name a, step = JObj d ->
     Dict.get "name" d = Some name -> Dict.get "arguments" d = Some a ->
     (forall args, a <> JObj args) ->
     run_plan st (step :: rest) = (st, Some AttributeError)).
Proof.
  repeat split.
  - intros Hno. cbn [Client.run_plan]. unfold Client.exec_step.
    destruct step; try reflexivity. now destruct (Hno members).
  - intros d -> [Hn|Ha]; cbn [Client.run_plan]; unfold Client.exec_step;
      cbn [getitem].
    + now rewrite Hn.
    + destruct (Dict.get "name" d); [now rewrite Ha | reflexivity].
  - intros d name a -> Hn Ha Hno. cbn [Client.run_plan].
    unfold Client.exec_step. cbn [getitem]. rewrite Hn, Ha.
    destruct a; try reflexivity. now destruct (Hno members).
Qed.

(** *** The transcript and the recorded outputs *)

(** What a completed step has done. *)
Lemma exec_step_done st step st' :
  exec_step st step = (st', None) ->
  exists name args text,
    getitem step "name" = Ok name /\
    getitem step "arguments" = Ok (JObj args) /\
    messages st' = messages st ++ [tool_message name text] /\
    calls st' = calls st ++ [(name, prepare (tool_outputs st) name args)] /\
    (forall n, name <> JStr n ->
               tool_outputs st' !! n = tool_outputs st !! n) /\
    (forall n, name = JStr n -> tool_outputs st' !! n = Some text).
Proof.
  unfold Client.exec_step.
  destruct (getitem step "name") as [name|e]; [|discriminate].
  destruct (getitem step "arguments") as [a|e]; [|discriminate].
  destruct a as [| | | | |args]; try discriminate.
  destruct (call_tool _ _ _) as [out h'].
  destruct out as [msg|e [|[text|kind] items]]; try discriminate.
  intros E. exists name, args, text.
  destruct name; simpl in E; inversion E; subst; clear E; simpl;
    repeat split; try congruence.
  - intros n Hn. apply lookup_insert_ne. congruence.
  - intros n [= ->]. apply lookup_insert_eq.
Qed.

(** X2.  After a run that completes, the transcript has grown by one tool
    message per step, in plan order, and the log by one call per step: the
    message of a step carries the name of the step as [tool_call_id], and
    that name is the tool that was called. *)
Theorem run_plan_transcript tool_plan : forall st st',
  run_plan st tool_plan = (st', None) ->
  exists ms cs,
    messages st' = messages st ++ ms /\
    calls st' = calls st ++ cs /\
    Forall2 (fun step c => getitem step "name" = Ok (fst c)) tool_plan cs /\
    Forall2 (fun m c => role m = "tool" /\ tool_call_id m = Some (fst c))
      ms cs.
Proof.
  induction tool_plan as [|step rest IH]; intros st st'.
  - intros [= <-]. exists [], []. rewrite !app_nil_r.
    repeat split; constructor.
  - cbn [Client.run_plan].
    destruct (exec_step st step) as [st1 [e|]] eqn:E1; [discriminate|].
    intros E. apply IH in E as (ms & cs & Em & Ec & Hp & Hm).
    apply exec_step_done in E1
      as (name & args & text & Hn & _ & Em1 & Ec1 & _).
    exists (tool_message name text :: ms),
           ((name, prepare (tool_outputs st) name args) :: cs).
    rewrite Em, Em1, Ec, Ec1, <- !app_assoc.
    repeat split; constructor; auto.
Qed.

(** The outputs and the transcript across one step, completed or not. *)
Lemma exec_step_frame st step :
  (exists ms, messages (fst (exec_step st step)) = messages st ++ ms) /\
  (forall n, getitem step "name" <> Ok (JStr n) ->
             tool_outputs (fst (exec_step st step)) !! n
             = tool_outputs st !! n) /\
  (forall n, is_Some (tool_outputs st !! n) ->
             is_Some (tool_outputs (fst (exec_step st step)) !! n)).
Proof.
  unfold Client.exec_step.
  destruct (getitem step "name") as [name|e];
    [|repeat split; auto; exists []; simpl; now rewrite app_nil_r].
  destruct (getitem step "arguments") as [a|e];
    [|repeat split; auto; exists []; simpl; now rewrite app_nil_r].
  destruct a as [| | | | |args];
    try (repeat split; auto; exists []; simpl; now rewrite app_nil_r).
  destruct (call_tool _ _ _) as [out h'].
  destruct out as [msg|e [|[text|kind] items]];
    try (repeat split; auto; exists []; simpl; now rewrite app_nil_r).
  destruct name; simpl;
    try (repeat split; auto; eexists; reflexivity).
  - repeat split; [eexists; reflexivity | |].
    + intros n Hn. apply lookup_insert_ne. congruence.
    + intros n Hs. destruct (decide (s = n)) as [->|Hne].
      * rewrite lookup_insert_eq. eauto.
      * now rewrite lookup_insert_ne.
  - repeat split; auto. exists []. now rewrite app_nil_r.
  - repeat split; auto. exists []. now rewrite app_nil_r.
Qed.

(** X3.  Whatever the plan and the host do, and whether the run completes
    or not, the transcript only grows at its end, no recorded output is
    ever removed, and the output recorded under a name that no step of the
    plan carries is left as it was. *)
Theorem run_plan_frame tool_plan : forall st,
  (exists ms, messages (fst (run_plan st tool_plan)) = messages st ++ ms) /\
  (forall n, is_Some (tool_outputs st !! n) ->
             is_Some (tool_outputs (fst (run_plan st tool_plan)) !! n)) /\
  (forall n, Forall (fun step => getitem step "name" <> Ok (JStr n))
               tool_plan ->
             tool_outputs (fst (run_plan st tool_plan)) !! n
             = tool_outputs st !! n).
Proof.
  induction tool_plan as [|step rest IH]; intros st.
  - simpl. repeat split; auto. exists []. now rewrite app_nil_r.
  - cbn [Client.run_plan].
    destruct (exec_step_frame st step) as ([ms1 Em1] & Hf1 & Hk1).
    destruct (exec_step st step) as [st1 [e|]] eqn:E1;
      cbn [fst] in Em1, Hf1, Hk1.
    + cbn [fst]. repeat split; eauto.
      intros n Hall. inversion Hall; subst. now apply Hf1.
    + destruct (IH st1) as ([ms Em] & Hk & Hf). repeat split.
      * exists (ms1 ++ ms). now rewrite Em, Em1, app_assoc.
      * intros n Hs. now apply Hk, Hk1.
      * intros n Hall. inversion Hall; subst.
        rewrite Hf by assumption. now apply Hf1.
Qed.

(** *** Values that are not placeholders *)

Lemma resolve_val_other tool_outputs v :
  (forall s, v = JStr s -> is_placeholder s = false) ->
  resolve_val tool_outputs v = v.
Proof.
  intros Hv. destruct v; try reflexivity. simpl.
  now rewrite (Hv s eq_refl).
Qed.

(** X6.  Resolution keeps the keys of the arguments and their order, and a
    value that is not a string of the placeholder form -- a number, a list
    or an object whatever it contains, a string that only contains a
    placeholder -- reaches the call unchanged. *)
Theorem resolve_only_whole_values st step name args :
  getitem step "name" = Ok name ->
  getitem step "arguments" = Ok (JObj args) ->
  List.map fst (resolve_args (tool_outputs st) args) = List.map fst args /\
  exists sent,
    calls (fst (exec_step st step)) = calls st ++ [(name, sent)] /\
    forall k v, Dict.get k args = Some v ->
                (forall s, v = JStr s -> is_placeholder s = false) ->
                Dict.get k sent = Some v.
Proof.
  intros Hn Ha. split.
  - unfold resolve_args, Dict.map_values. rewrite List.map_map.
    now apply List.map_ext.
  - exists (prepare (tool_outputs st) name args). split.
    + now apply ExecFacts.exec_step_calls.
    + intros k v Hk Hv.
      rewrite (ExecFacts.prepare_present _ _ _ _ _ _ _ Hk).
      now rewrite resolve_val_other.
Qed.

(** *** Chaining two tools of any names *)

(** X5.  For any two tools, when the first step completes with the text
    [t] and an argument of the second step is the placeholder of the first
    tool's name, the second tool is called with [t] for that argument. *)
Theorem chain_any_names st n1 args1 n2 args2 k isError t items h1 post :
  edges_outside brace_or_space n1 = true ->
  Dict.get k args2 = Some (JStr ("{{" +:+ n1 +:+ "}}")) ->
  call_tool (host st) (JStr n1) (prepare (tool_outputs st) (JStr n1) args1)
  = (Returned isError (TextContent t :: items), h1) ->
  exists sent,
    calls (fst (run_plan st (call_step n1 args1 :: call_step n2 args2 :: post)))
      !! S (length (calls st)) = Some (JStr n2, sent) /\
    Dict.get k sent = Some (JStr t).
Proof.
  intros He Hk Hc.
  pose proof (braces_are_placeholder n1) as Hp.
  pose proof (braces_strip "" n1 "" eq_refl eq_refl He) as Hr.
  rewrite !TextFacts.append_nil_l in Hr.
  pose proof (ExecFacts.exec_step_returned call_tool txt_filename txt_path
                st (call_step n1 args1) n1 args1 isError t items h1
                eq_refl eq_refl Hc) as E1.
  set (st1 := ExecState (<[n1 := t]> (tool_outputs st))
                (messages st ++ [tool_message (JStr n1) t]) h1
                (calls st
                   ++ [(JStr n1, prepare (tool_outputs st) (JStr n1) args1)]))
    in E1.
  assert (R : run_plan st [call_step n1 args1] = (st1, None))
    by (cbn [Client.run_plan]; now rewrite E1).
  exists (prepare (tool_outputs st1) (JStr n2) args2). split.
  - pose proof (ExecFacts.run_plan_nth_call call_tool txt_filename txt_path
                  st [call_step n1 args1] (call_step n2 args2) post st1
                  (JStr n2) args2 R eq_refl eq_refl) as N.
    cbn [length app] in N. now rewrite Nat.add_1_r in N.
  - rewrite (ExecFacts.prepare_present _ _ _ _ _ _ _ Hk).
    cbn [resolve_val]. rewrite Hp, Hr. subst st1. cbn [tool_outputs].
    now rewrite lookup_insert_eq.
Qed.

End Executor.

(** *** The properties at work *)

Local Abbreviation host_of := (@script_host json (list (string * json))).
Local Abbreviation run := (Client.run_plan host_of "f.txt" "report/f.txt").
Local Abbreviation step_of := (Client.exec_step host_of "f.txt" "report/f.txt").

Lemma run_plan_unreadable_step_witness :
  let st := initial [text "ok"] "q" in
  run st [JStr "toolA"; call_step "toolB" []] = (st, Some TypeError) /\
  run st [JObj [("arguments", JObj [])]; call_step "toolB" []]
  = (st, Some KeyError) /\
  run st [JObj [("name", JStr "toolA"); ("arguments", JArr [])];
          call_step "toolB" []]
  = (st, Some AttributeError).
Proof.
  cbv zeta.
  split; [|split].
  - apply (run_plan_unreadable_step host_of "f.txt" "report/f.txt").
    discriminate.
  - apply (proj1 (proj2 (run_plan_unreadable_step host_of "f.txt"
                           "report/f.txt" (initial [text "ok"] "q")
                           (JObj [("arguments", JObj [])])
                           [call_step "toolB" []]))
             [("arguments", JObj [])] eq_refl).
    left. reflexivity.
  - apply (proj2 (proj2 (run_plan_unreadable_step host_of "f.txt"
                           "report/f.txt" (initial [text "ok"] "q")
                           (JObj [("name", JStr "toolA");
                                  ("arguments", JArr [])])
                           [call_step "toolB" []]))
             [("name", JStr "toolA"); ("arguments", JArr [])]
             (JStr "toolA") (JArr []) eq_refl eq_refl eq_refl).
    discriminate.
Defined.

Lemma run_plan_transcript_witness :
  exists ms cs,
    messages (fst (run (initial [text "42"; text "ok"] "q") chain_plan))
    = messages (initial [text "42"; text "ok"] "q") ++ ms /\
    calls (fst (run (initial [text "42"; text "ok"] "q") chain_plan))
    = calls (initial [text "42"; text "ok"] "q") ++ cs /\
    Forall2 (fun step c => getitem step "name" = Ok (fst c)) chain_plan cs /\
    Forall2 (fun m c => role m = "tool" /\ tool_call_id m = Some (fst c))
      ms cs.
Proof.
  exact (run_plan_transcript host_of "f.txt" "report/f.txt" chain_plan
           (initial [text "42"; text "ok"] "q")
           (fst (run (initial [text "42"; text "ok"] "q") chain_plan))
           eq_refl).
Defined.

Lemma run_plan_frame_witness :
  let st := ExecState {["kept" := "old"]} [] [text "1"; Raised "boom"] [] in
  is_Some (tool_outputs (fst (run st bad_good_plan)) !! "kept") /\
  tool_outputs (fst (run st bad_good_plan)) !! "kept" = Some "old".
Proof.
  cbv zeta.
  destruct (run_plan_frame host_of "f.txt" "report/f.txt" bad_good_plan
              (ExecState {["kept" := "old"]} [] [text "1"; Raised "boom"] []))
    as (_ & Hkeep & Hframe).
  split.
  - apply Hkeep. now exists "old".
  - rewrite Hframe; [reflexivity|]. repeat constructor; discriminate.
Defined.

Lemma resolve_only_whole_values_witness :
  exists sent,
    calls (fst (step_of (ExecState {["toolA" := "42"]} [] [text "ok"] [])
                  (call_step "toolB"
                     [("n", JNum "7");
                      ("s", JStr "see {{toolA}}");
                      ("l", JArr [JStr "{{toolA}}"])])))
    = [] ++ [(JStr "toolB", sent)] /\
    Dict.get "n" sent = Some (JNum "7") /\
    Dict.get "s" sent = Some (JStr "see {{toolA}}") /\
    Dict.get "l" sent = Some (JArr [JStr "{{toolA}}"]).
Proof.
  destruct (resolve_only_whole_values host_of "f.txt" "report/f.txt"
              (ExecState {["toolA" := "42"]} [] [text "ok"] [])
              (call_step "toolB"
                 [("n", JNum "7");
                  ("s", JStr "see {{toolA}}");
                  ("l", JArr [JStr "{{toolA}}"])])
              (JStr "toolB")
              [("n", JNum "7");
               ("s", JStr "see {{toolA}}");
               ("l", JArr [JStr "{{toolA}}"])]
              eq_refl eq_refl) as (_ & sent & Hc & Hv).
  exists sent. split; [exact Hc|].
  repeat split; apply Hv; try reflexivity; intros s [= <-]; reflexivity.
Defined.

Lemma chain_any_names_witness :
  exists sent,
    calls (fst (run (initial [text "news"; text "ok"] "q")
                  [call_step "search_google_news" [("keywords", JStr "ai")];
                   call_step "analyze_sentiment"
                     [("text", JStr "{{search_google_news}}")]]))
      !! 1%nat = Some (JStr "analyze_sentiment", sent) /\
    Dict.get "text" sent = Some (JStr "news").
Proof.
  exact (chain_any_names host_of "f.txt" "report/f.txt"
           (initial [text "news"; text "ok"] "q")
           "search_google_news" [("keywords", JStr "ai")]
           "analyze_sentiment" [("text", JStr "{{search_google_news}}")]
           "text" false "news" [] [text "ok"] []
           eq_refl eq_refl eq_refl).
Defined.

End ExecExtra.

(** ** fastmcp_sse_client.py: further properties of the session *)

Module SseExtra.
Import Json Host SseClient Scenario Shape Models Limits.

(** *** The fence *)

Lemma space_outside_fence c :
  PyStr.isspace c = true -> PyStr.mem c "```json" = false.
Proof. destruct c as [[] [] [] [] [] [] [] []]; vm_compute; congruence. Qed.

(** X10.  A text wrapped as [```json], white space, body, white space,
    [```] is unwrapped to exactly the body, for every body that is not
    empty and whose first and last characters are ASCII, not white space
    and none of the characters of [```json]; a JSON object is such a
    body.  The white space around the body is that of the ASCII range. *)
Theorem unfence_fenced (w1 body w2 : string) :
  all_chars PyStr.isspace w1 = true ->
  all_chars PyStr.isspace w2 = true ->
  edges_outside fence_space_or_wide body = true ->
  unfence ("```json" +:+ w1 +:+ body +:+ w2 +:+ "```") = body /\
  unfence body = body.
Proof.
  intros H1 H2 Hw.
  assert (He : edges_outside fence_or_space body = true).
  { apply (TextFacts.edges_outside_weaken fence_space_or_wide); [|exact Hw].
    intros c Hc. unfold fence_space_or_wide. now rewrite Hc. }
  assert (Hset : edges_outside (fun c => PyStr.mem c "```json") body = true).
  { apply (TextFacts.edges_outside_weaken fence_or_space); [|exact He].
    intros c Hc. unfold fence_or_space. now rewrite Hc. }
  assert (Htick : edges_outside (fun c => PyStr.mem c "```") body = true).
  { apply (TextFacts.edges_outside_weaken fence_or_space); [|exact He].
    intros c Hc. unfold fence_or_space.
    cbn [PyStr.mem] in Hc |- *.
    destruct (Ascii.eqb c "`"); [reflexivity | discriminate Hc]. }
  assert (Hsp : edges_outside PyStr.isspace body = true).
  { apply (TextFacts.edges_outside_weaken fence_or_space); [|exact He].
    intros c Hc. unfold fence_or_space. rewrite Hc. apply orb_true_r. }
  split.
  - unfold unfence.
    rewrite (ExecExtra.startswith_append "```json").
    unfold PyStr.strip_chars.
    replace ("```json" +:+ w1 +:+ body +:+ w2 +:+ "```")
      with ("```json" +:+ (w1 +:+ body +:+ w2) +:+ "```")
      by (now rewrite !TextFacts.append_assoc).
    rewrite (TextFacts.strip_by_pad (fun c => PyStr.mem c "```json")
               "```json" (w1 +:+ body +:+ w2) "```" eq_refl eq_refl).
    + rewrite TextFacts.strip_by_id.
      * now apply TextFacts.strip_by_pad.
      * apply (TextFacts.edges_outside_pad _ PyStr.isspace); auto.
        intros c Hc. apply space_outside_fence in Hc.
        cbn [PyStr.mem] in Hc |- *.
        destruct (Ascii.eqb c "`"); [discriminate Hc | reflexivity].
    + apply (TextFacts.edges_outside_pad _ PyStr.isspace); auto.
      apply space_outside_fence.
  - unfold unfence. destruct body as [|a body']; [discriminate He|].
    pose proof (TextFacts.edges_outside_first _ _ a Hset eq_refl) as Ha.
    cbn [PyStr.startswith]. cbn [PyStr.mem] in Ha.
    destruct (Ascii.eqb_spec "`" a) as [<-|]; [discriminate Ha|reflexivity].
Qed.

Lemma unfence_fenced_witness :
  unfence ("```json" +:+ Client.nl +:+ tool_call_text "add" "1" "2"
             +:+ Client.nl +:+ "```")
  = tool_call_text "add" "1" "2" /\
  unfence (tool_call_text "add" "1" "2") = tool_call_text "add" "1" "2".
Proof.
  exact (unfence_fenced Client.nl (tool_call_text "add" "1" "2") Client.nl
           eq_refl eq_refl eq_refl).
Defined.

Section Session.
Context {H : Type}.
Variable list_tools : H -> result (list string).
Variable call_tool : H -> string -> json -> outcome * H.
Variable py_str : json -> string.

Local Abbreviation session := (@session H (list string)).
Local Abbreviation process :=
  (process_llm_response (L := list string) list_tools call_tool py_str).
Local Abbreviation called := (called (L := list string) call_tool).
Local Abbreviation offered := (offered list_tools).

Implicit Types (st : session) (c : tool_reply).

(** *** What the reply handler answers *)

(** X7.  A reply that asks for a tool the catalog does not hold is answered
    with the no-such-tool message: the host is not called, the state is
    unchanged, and the answer differs from the reply, so the loop of
    [start] goes on with a further request to the model. *)
Theorem process_unknown_tool st r d tool ts :
  loads (unfence r) = Ok (JObj d) ->
  Dict.get "tool" d = Some tool ->
  Dict.mem "arguments" d = true ->
  list_tools (host st) = Ok ts ->
  known ts tool = false ->
  process st r = (Ok (missing_message (format py_str tool)), st) /\
  missing_message (format py_str tool) <> r.
Proof.
  intros El Gt Ma Et Hk. split.
  - unfold SseClient.process_llm_response. rewrite El. cbn [contains].
    rewrite (DictFacts.mem_true _ _ _ Gt), Ma, Et. cbn [getitem].
    now rewrite Gt, Hk.
  - destruct (SseSpec.reply_head _ _ El) as (a & s & -> & Ha).
    intros E. unfold missing_message in E.
    assert (Hb : (code a <? 128)%N = false) by (injection E as <- _; reflexivity).
    congruence.
Qed.

(** X8.  An invocation that raises does not leave the handler: the reply
    is answered with the error message that carries the text of the
    exception, and the call is in the log. *)
Theorem process_reports_raised_call st c msg h' :
  encodes_call c -> offered c ->
  call_tool (host st) (reply_tool c) (reply_args c) = (Raised msg, h') ->
  process st (reply_text c) = (Ok (error_message msg), called st c).
Proof.
  intros (d & El & Gt & Ga) Hoff Hc.
  destruct (Hoff (host st)) as (ts & Et & Hin).
  unfold SseClient.process_llm_response. rewrite El. cbn [contains].
  rewrite (DictFacts.mem_true _ _ _ Gt), (DictFacts.mem_true _ _ _ Ga).
  rewrite Et. cbn [getitem]. rewrite Gt, (SseSpec.known_in _ _ Hin).
  unfold invoke, SseClient.called. cbn [getitem format]. rewrite Ga, Hc.
  reflexivity.
Qed.

(** The decoder of the model raises nothing but [JSONDecodeError]; so
    does [json.loads] on the texts within the limits of the interpreter. *)
Lemma loads_raises s e : loads s = Raise e -> e = JSONDecodeError.
Proof.
  unfold loads, finish. destruct (run _ s) as [m stk].
  destruct m; try (intros [= <-]; reflexivity); try discriminate.
  destruct stk; [|intros [= <-]; reflexivity].
  destruct (num_final st); [discriminate | intros [= <-]; reflexivity].
Qed.

(** X9.  For a reply within the limits of the interpreter, the only
    exceptions that leave the handler are the failure of the catalog
    request and the [TypeError] of a reply that decodes to a value other
    than an object (a number, a boolean, null, or a string or list that
    holds both key words); the state is then the one before the reply. *)
Theorem process_raises_only st r e st' :
  within_limits (unfence r) = true ->
  process st r = (Raise e, st') ->
  st' = st /\
  (list_tools (host st) = Raise e \/
   e = TypeError /\
   exists v, loads (unfence r) = Ok v /\ forall d, v <> JObj d).
Proof.
  intros _. unfold SseClient.process_llm_response.
  destruct (loads (unfence r)) as [v|e0] eqn:El.
  - destruct v as [|b|n|s|l|d]; cbn [contains];
      try (intros [= <- <-]; split; [reflexivity|]; right;
           split; [reflexivity|]; eexists; split;
           [reflexivity | discriminate]).
    + destruct (PyStr.contains s "tool"); [|discriminate].
      destruct (PyStr.contains s "arguments"); [|discriminate].
      destruct (list_tools (host st)) as [ts|e1];
        [|intros [= <- <-]; split; [reflexivity | now left]].
      cbn [getitem]. intros [= <- <-]. split; [reflexivity|]. right.
      split; [reflexivity|]. eexists. split; [reflexivity | discriminate].
    + destruct (existsb _ l); [|discriminate].
      destruct (existsb _ l); [|discriminate].
      destruct (list_tools (host st)) as [ts|e1];
        [|intros [= <- <-]; split; [reflexivity | now left]].
      cbn [getitem]. intros [= <- <-]. split; [reflexivity|]. right.
      split; [reflexivity|]. eexists. split; [reflexivity | discriminate].
    + destruct (Dict.mem "tool" d) eqn:Mt; [|discriminate].
      destruct (Dict.mem "arguments" d); [|discriminate].
      destruct (list_tools (host st)) as [ts|e1];
        [|intros [= <- <-]; split; [reflexivity | now left]].
      cbn [getitem]. unfold Dict.mem in Mt.
      destruct (Dict.get "tool" d) as [tool|]; [|discriminate].
      destruct (known ts tool); [|discriminate].
      destruct (invoke _ _ _ _); discriminate.
  - apply loads_raises in El. subst e0. discriminate.
Qed.

(** *** The loop has no bound of its own *)

Local Abbreviation loop_always r :=
  (tool_loop list_tools call_tool py_str (always r)).
Local Abbreviation turn_always r :=
  (turn list_tools call_tool py_str (always r)).

Lemma tool_loop_always c : encodes_call c -> offered c ->
  forall fuel st res,
    res <> reply_text c -> loop_always (reply_text c) fuel st (reply_text c) res = None.
Proof.
  intros Hc Ho. induction fuel as [|fuel IH]; intros st res Hne;
    cbn [SseClient.tool_loop]; apply String.eqb_neq in Hne; rewrite Hne;
    [reflexivity|].
  unfold ask, always. cbn [llm messages host calls say].
  match goal with |- context [process ?s (reply_text c)] =>
    destruct (SseSpec.process_call list_tools call_tool py_str s c Hc Ho)
      as (res' & -> & Hne') end.
  now apply IH.
Qed.

(** X11.  The loop of [start] has no bound of its own: with a model that
    answers every request with the same call of an offered tool, a turn is
    still running after any number of iterations. *)
Theorem turn_never_ends c (fuel : nat) st (user_input : string) :
  encodes_call c -> offered c ->
  turn_always (reply_text c) fuel st user_input = None.
Proof.
  intros Hc Ho. unfold SseClient.turn, ask, always.
  cbn [llm messages host calls say].
  match goal with |- context [process ?s (reply_text c)] =>
    destruct (SseSpec.process_call list_tools call_tool py_str s c Hc Ho)
      as (res' & -> & Hne') end.
  now apply tool_loop_always.
Qed.

(** *** The transcript of a turn *)

Local Abbreviation log := (list string * list (list message))%type.
Local Abbreviation loop_recording :=
  (tool_loop list_tools call_tool py_str recording).
Local Abbreviation turn_recording :=
  (turn list_tools call_tool py_str recording).
Local Abbreviation replay := (replay call_tool).

Lemma tool_loop_requests (rest : list tool_reply) (t : string) :
  Forall (catalogued_call list_tools) rest ->
  plain_reply t ->
  forall fuel (st : @SseClient.session H log) r res seen,
    res <> r ->
    llm st = (List.map reply_text rest ++ [t], seen) ->
    (length rest < fuel)%nat ->
    loop_recording fuel st r res
    = Some (Session
              (messages st
                 ++ Message "assistant" r :: Message "system" res
                    :: exchange (List.map reply_text rest)
                         (snd (replay (host st) rest))
                 ++ [Message "assistant" t])
              (fst (replay (host st) rest))
              ([], seen
                   ++ requests
                        (messages st ++ [Message "assistant" r;
                                         Message "system" res])
                        (List.map reply_text rest)
                        (snd (replay (host st) rest)))
              (calls st
                 ++ List.map (fun c => (reply_tool c, reply_args c)) rest),
            None).
Proof.
  intros Hrest Ht. induction Hrest as [|c rest (_ & Hc & Ho) _ IH];
    intros fuel st r res seen Hne Hl Hf.
  - destruct fuel as [|fuel]; [simpl in Hf; lia|].
    cbn [SseClient.tool_loop].
    apply String.eqb_neq in Hne. rewrite Hne.
    unfold ask, say. cbn [llm messages host calls]. rewrite Hl.
    cbn [List.map app recording fst snd].
    rewrite (SseSpec.process_plain_reply list_tools call_tool py_str _ _ Ht).
    cbn [Models.replay fst snd exchange requests List.map].
    rewrite app_nil_r.
    destruct fuel; cbn [SseClient.tool_loop]; rewrite String.eqb_refl;
      unfold say; cbn [llm messages host calls];
      now rewrite <- app_assoc.
  - destruct fuel as [|fuel]; [simpl in Hf; lia|].
    cbn [SseClient.tool_loop].
    apply String.eqb_neq in Hne. rewrite Hne.
    unfold ask, say. cbn [llm messages host calls]. rewrite Hl.
    cbn [List.map app recording fst snd].
    match goal with |- context [process_llm_response _ _ _ ?s (reply_text c)] =>
      destruct (SseSpec.process_call_result list_tools call_tool py_str s c
                  Hc Ho) as (-> & Hne') end.
    simpl in Hf.
    erewrite IH; [|exact Hne'|reflexivity|lia].
    rewrite SseSpec.replay_cons.
    cbn [SseClient.called messages host calls fst snd exchange requests
         List.map].
    now rewrite <- !app_assoc.
Qed.

(** X12.  With a model that replies with calls of catalogued tools and
    then with plain text, and keeps what it is asked, the transcript after
    the turn is the one before it, the user message, then for each call
    the reply as an assistant message directly followed by the result of
    that call as a system message, and the plain answer as the last
    assistant message.  The model has been shown every result: it got one
    request with the transcript up to the user message, and after each
    call one with the transcript up to the result of that call. *)
Theorem turn_transcript (replies : list tool_reply) (t : string)
    (fuel : nat) (st : @SseClient.session H log) (user_input : string)
    (seen : list (list message)) :
  Forall (catalogued_call list_tools) replies ->
  within_limits t = true ->
  plain_reply t ->
  llm st = (List.map reply_text replies ++ [t], seen) ->
  (length replies <= fuel)%nat ->
  let results := snd (replay (host st) replies) in
  exists st' : @SseClient.session H log,
    turn_recording fuel st user_input = Some (st', None) /\
    messages st'
    = messages st
        ++ Message "user" user_input
           :: exchange (List.map reply_text replies) results
        ++ [Message "assistant" t] /\
    snd (llm st')
    = seen ++ requests (messages st ++ [Message "user" user_input])
                (List.map reply_text replies) results.
Proof.
  intros Hrep _ Ht Hl Hf results. subst results.
  unfold SseClient.turn, ask, say.
  cbn [llm messages host calls]. rewrite Hl.
  destruct Hrep as [|c rest (_ & Hc & Ho) Hrest].
  - cbn [List.map app recording fst snd].
    rewrite (SseSpec.process_plain_reply list_tools call_tool py_str _ _ Ht).
    cbn [Models.replay fst snd exchange requests List.map].
    eexists. split; [|split].
    + destruct fuel; cbn [SseClient.tool_loop]; rewrite String.eqb_refl;
        reflexivity.
    + unfold say. cbn [messages]. now rewrite <- app_assoc.
    + reflexivity.
  - cbn [List.map app recording fst snd].
    match goal with |- context [process_llm_response _ _ _ ?s (reply_text c)] =>
      destruct (SseSpec.process_call_result list_tools call_tool py_str s c
                  Hc Ho) as (-> & Hne') end.
    simpl in Hf.
    erewrite (tool_loop_requests rest t Hrest Ht);
      [|exact Hne'|reflexivity|lia].
    rewrite SseSpec.replay_cons.
    cbn [SseClient.called messages host calls llm fst snd exchange requests
         List.map].
    eexists. split; [reflexivity|]. cbn [messages llm snd].
    split; now rewrite <- !app_assoc.
Qed.

End Session.

(** *** The properties at work *)

Local Abbreviation handle :=
  (process_llm_response (L := list string) catalog
     (@script_host string json) no_str).

Lemma process_unknown_tool_witness :
  handle scripted_session (tool_call_text "power" "2" "8")
  = (Ok (missing_message "power"), scripted_session) /\
  missing_message "power" <> tool_call_text "power" "2" "8".
Proof.
  apply (process_unknown_tool catalog (@script_host string json) no_str
           scripted_session (tool_call_text "power" "2" "8")
           [("tool", JStr "power");
            ("arguments", JObj [("a", JNum "2"); ("b", JNum "8")])]
           (JStr "power") ["add"; "substract"; "multiply"; "divide"]);
    reflexivity.
Defined.

Lemma process_reports_raised_call_witness :
  handle failing_session (tool_call_text "divide" "1" "0")
  = (Ok (error_message "division by zero"),
     Session [] [] []
       [("divide", JObj [("a", JNum "1"); ("b", JNum "0")])]).
Proof.
  apply (process_reports_raised_call catalog (@script_host string json) no_str
           failing_session
           (ToolReply (tool_call_text "divide" "1" "0") "divide"
              (JObj [("a", JNum "1"); ("b", JNum "0")]))
           "division by zero" []).
  - eexists. repeat split; vm_compute; reflexivity.
  - intros h. eexists. split; [reflexivity|]. simpl. tauto.
  - reflexivity.
Defined.

Lemma process_raises_only_witness :
  scripted_session = scripted_session /\
  (catalog (host scripted_session) = Raise TypeError \/
   TypeError = TypeError /\
   exists v, loads (unfence "true") = Ok v /\ forall d, v <> JObj d).
Proof.
  exact (process_raises_only catalog (@script_host string json) no_str
           scripted_session "true" TypeError scripted_session eq_refl
           eq_refl).
Defined.

Lemma turn_never_ends_witness :
  turn catalog (@script_host string json) no_str
    (always (tool_call_text "add" "1" "2")) 1000 scripted_session "1 + 2"
  = None.
Proof.
  apply (turn_never_ends catalog (@script_host string json) no_str
           (ToolReply (tool_call_text "add" "1" "2") "add"
              (JObj [("a", JNum "1"); ("b", JNum "2")]))
           1000 scripted_session "1 + 2").
  - eexists. repeat split; vm_compute; reflexivity.
  - intros h. eexists. split; [reflexivity|]. simpl. tauto.
Defined.

Lemma turn_transcript_witness :
  exists st',
    turn catalog (@script_host string json) no_str recording 2
      recording_session "88.5 * 235 + 2"
    = Some (st', None) /\
    messages st'
    = [Message "system" "rules"; Message "user" "88.5 * 235 + 2";
       Message "assistant" (tool_call_text "multiply" "88.5" "235");
       Message "system" (call_message "multiply" "20797.5");
       Message "assistant" (tool_call_text "add" "20797.5" "2");
       Message "system" (call_message "add" "20799.5");
       Message "assistant" "plain text"] /\
    snd (llm st')
    = [[Message "system" "rules"; Message "user" "88.5 * 235 + 2"];
       [Message "system" "rules"; Message "user" "88.5 * 235 + 2";
        Message "assistant" (tool_call_text "multiply" "88.5" "235");
        Message "system" (call_message "multiply" "20797.5")];
       [Message "system" "rules"; Message "user" "88.5 * 235 + 2";
        Message "assistant" (tool_call_text "multiply" "88.5" "235");
        Message "system" (call_message "multiply" "20797.5");
        Message "assistant" (tool_call_text "add" "20797.5" "2");
        Message "system" (call_message "add" "20799.5")]].
Proof.
  apply (turn_transcript catalog (@script_host string json) no_str
           two_calls "plain text" 2 recording_session "88.5 * 235 + 2" []).
  - repeat constructor.
    + eexists. repeat split; vm_compute; reflexivity.
    + intros h. eexists. split; [reflexivity|]. simpl. tauto.
    + eexists. repeat split; vm_compute; reflexivity.
    + intros h. eexists. split; [reflexivity|]. simpl. tauto.
  - reflexivity.
  - split; [reflexivity|]. left. reflexivity.
  - reflexivity.
  - simpl. lia.
Defined.

End SseExtra.

(** ** client.py: the names derived from a query *)

Module NamesFacts.
Import Names.

(** *** The matcher on characters *)

Lemma rx_closed {R : Type} (P : option R -> Prop) (r : Rx.rx) :
  P None ->
  forall s g k, (forall s' g', P (k s' g')) -> P (Rx.mt r s g k).
Proof.
  intros HN. induction r as [l|p|r1 IH1 r2 IH2|r1 IH1 r2 IH2|r1 IH|n r1 IH];
    intros s g k Hk; simpl.
  - destruct (Rx.drop_prefix l s); auto.
  - destruct s as [|c s']; auto. destruct (p c); auto.
  - apply IH1. intros s' g'. apply IH2, Hk.
  - destruct (Rx.mt r1 s g k) eqn:E.
    + rewrite <- E. apply IH1, Hk.
    + apply IH2, Hk.
  - generalize (length s) as m. intros m. revert s g.
    induction m as [|m IHm]; intros s g; [apply IH, Hk|].
    apply IH. intros s' g'.
    destruct (length s' <? length s)%nat; [|apply Hk].
    destruct (_ m s' g') eqn:E; [|apply Hk].
    rewrite <- E. apply IHm.
  - apply IH. intros s' g'. apply Hk.
Qed.

(** A repeated class hands over the rest of the subject after a run of
    characters of the class that is not empty. *)
Lemma rx_plus_class {R : Type} (P : option R -> Prop) (p : N -> bool) :
  P None ->
  forall s g (k : list N -> Rx.captures -> option R),
    (forall pre s', s = pre ++ s' -> pre <> [] -> forallb p pre = true ->
                    P (k s' g)) ->
    P (Rx.mt (Rx.Plus (Rx.Class p)) s g k).
Proof.
  intros HN s g k. simpl. generalize (length s) as m. intros m. revert s k.
  induction m as [|m IHm]; intros s k Hk.
  - destruct s as [|c s']; auto. destruct (p c) eqn:Pc; auto.
    apply (Hk [c] s'); [reflexivity | discriminate | simpl; now rewrite Pc].
  - destruct s as [|c s']; auto. destruct (p c) eqn:Pc; auto.
    destruct (length s' <? length (c :: s'))%nat.
    + match goal with |- P (match ?x with _ => _ end) =>
        destruct x eqn:E end.
      * rewrite <- E. apply IHm. intros pre s'' -> Hne Hp.
        apply (Hk (c :: pre) s''); [reflexivity | discriminate|].
        simpl. now rewrite Pc.
      * apply (Hk [c] s'); [reflexivity | discriminate | simpl; now rewrite Pc].
    + apply (Hk [c] s'); [reflexivity | discriminate | simpl; now rewrite Pc].
Qed.

Lemma firstn_consumed (pre s' : list N) :
  firstn (length (pre ++ s') - length s') (pre ++ s') = pre.
Proof.
  rewrite length_app.
  replace (length pre + length s' - length s')%nat with (length pre) by lia.
  rewrite firstn_app, firstn_all, Nat.sub_diag. simpl. apply app_nil_r.
Qed.

Lemma keyword_pattern_match s g :
  good_match (Rx.mt keyword_pattern s g (fun _ g' => Some g')).
Proof.
  unfold keyword_pattern. cbn [Rx.mt].
  apply (rx_closed good_match); [now left|]. intros s1 g1.
  apply (rx_plus_class good_match); [now left|].
  intros pre s' -> Hne Hp. right.
  eexists. exists pre. split; [reflexivity|].
  rewrite firstn_consumed. repeat split; auto.
Qed.

Lemma keyword_pattern_search s : good_match (Rx.search keyword_pattern s).
Proof.
  induction s as [|c s IH]; cbn [Rx.search].
  - destruct (keyword_pattern_match [] Rx.no_capture) as [->|(g & k & -> & H)].
    + now left.
    + right. now exists g, k.
  - destruct (keyword_pattern_match (c :: s) Rx.no_capture)
      as [->|(g & k & -> & H)].
    + exact IH.
    + right. now exists g, k.
Qed.

(** X13.  The keyword taken from a query is never empty and holds no white
    space, no line break and none of the characters that end it in the
    pattern, whether it comes from the query or is the default one. *)
Theorem keyword_shape (query : list N) :
  keyword query <> [] /\ forallb keyword_char (keyword query) = true.
Proof.
  unfold keyword.
  destruct (keyword_pattern_search query) as [->|(g & k & -> & -> & Hne & Hp)].
  - split; [discriminate | reflexivity].
  - now split.
Qed.

(** *** Names without forbidden characters *)

Lemma remove_forbidden_clean text :
  Forall (fun c => Ustr.among forbidden c = false) (remove_forbidden text).
Proof.
  unfold remove_forbidden. induction text as [|c text IH];
    cbn [List.filter].
  - constructor.
  - destruct (Ustr.among forbidden c) eqn:E; cbn [negb]; [exact IH|].
    now constructor.
Qed.

Lemma Forall_firstn {A : Type} (P : A -> Prop) n (l : list A) :
  Forall P l -> Forall P (firstn n l).
Proof.
  intros Hl. revert n. induction Hl as [|x l Hx Hl IH]; intros [|n]; simpl;
    constructor; auto.
Qed.

(** X14.  The keyword put into the report name has at most 20 characters
    and the name of the record of a query at most 50, and neither holds a
    backslash, a slash, a colon, a star, a question mark, a quotation mark,
    an angle bracket or a bar. *)
Theorem names_are_clean (query : list N) :
  (length (safe_keyword query) <= 20)%nat /\
  Forall (fun c => Ustr.among forbidden c = false) (safe_keyword query) /\
  (length (clean_filename query) <= 50)%nat /\
  Forall (fun c => Ustr.among forbidden c = false) (clean_filename query).
Proof.
  unfold safe_keyword, clean_filename. repeat split.
  - apply firstn_le_length.
  - apply Forall_firstn, remove_forbidden_clean.
  - apply firstn_le_length.
  - apply Forall_firstn, remove_forbidden_clean.
Qed.

(** *** The default keyword *)

Lemma drop_prefix_app l : forall s s',
  Rx.drop_prefix l s = Some s' -> s = l ++ s'.
Proof.
  induction l as [|a l IH]; intros s s'; simpl.
  - now intros [= ->].
  - destruct s as [|b s]; [discriminate|].
    destruct (N.eqb_spec a b) as [->|]; [|discriminate].
    intros E. apply IH in E. now subst.
Qed.

Lemma trigger_prefix {R : Type} s g (k : list N -> Rx.captures -> option R) :
  Rx.mt trigger s g k <> None ->
  exists w s', In w triggers /\ s = w ++ s'.
Proof.
  unfold trigger. cbn [Rx.mt].
  repeat match goal with
  | |- context [Rx.drop_prefix ?l s] =>
      let E := fresh "E" in
      destruct (Rx.drop_prefix l s) as [s'|] eqn:E;
      [ apply drop_prefix_app in E |]
  end;
  intros Hk;
  try (exfalso; now apply Hk);
  repeat match goal with
  | |- context [match ?x with _ => _ end] => destruct x
  end;
  match goal with
  | E : s = ?w ++ ?t |- _ =>
      exists w, t; split; [vm_compute; tauto | exact E]
  end.
Qed.

(** X15.  A query in which none of the five trigger words occurs gets the
    default keyword. *)
Theorem keyword_default (query : list N) :
  (forall w pre post, In w triggers -> query <> pre ++ w ++ post) ->
  keyword query = Ustr.decode "分析对象".
Proof.
  intros Hno. unfold keyword.
  assert (S : Rx.search keyword_pattern query = None).
  { assert (G : forall pre s, query = pre ++ s ->
                              Rx.search keyword_pattern s = None).
    { intros pre s. revert pre.
      assert (M : forall pre s, query = pre ++ s ->
                  Rx.mt keyword_pattern s Rx.no_capture
                    (fun _ g' => Some g') = None).
      { intros pre s0 E.
        destruct (Rx.mt keyword_pattern s0 Rx.no_capture
                    (fun _ g' => Some g')) eqn:Em; [|reflexivity].
        exfalso.
        assert (Hne : Rx.mt keyword_pattern s0 Rx.no_capture
                        (fun _ g' => Some g') <> None)
          by (rewrite Em; discriminate).
        unfold keyword_pattern in Hne. cbn [Rx.mt] in Hne.
        apply trigger_prefix in Hne as (w & s' & Hw & Es).
        apply (Hno w pre s' Hw). now rewrite E, Es. }
      induction s as [|c s IH]; intros pre E; cbn [Rx.search];
        rewrite (M pre _ E); [reflexivity|].
      apply (IH (pre ++ [c])). now rewrite <- app_assoc. }
    apply (G [] query eq_refl). }
  now rewrite S.
Qed.

Lemma keyword_default_witness :
  keyword (Ustr.decode "what is new?") = Ustr.decode "分析对象".
Proof.
  apply keyword_default. intros w pre post Hin E.
  assert (A : forall c, In c w -> In c (Ustr.decode "what is new?")).
  { intros c Hc. rewrite E. apply in_or_app. right. apply in_or_app.
    now left. }
  vm_compute in Hin.
  repeat (destruct Hin as [<-|Hin];
          [specialize (A _ (or_introl eq_refl)); vm_compute in A;
           intuition discriminate|]).
  exact Hin.
Defined.

End NamesFacts.

(** ** client.py: the launch of the server *)

Module LaunchFacts.
Import Launch.

Lemma take_drop n : forall s, take n s +:+ drop n s = s.
Proof.
  induction n as [|n IH]; intros [|c s]; try reflexivity.
  cbn [take drop]. rewrite TextFacts.append_cons. now rewrite IH.
Qed.

(** The two parts of [splitext] make up the path. *)
Lemma splitext_join p : fst (splitext p) +:+ snd (splitext p) = p.
Proof.
  unfold splitext. destruct (_ && _); cbn [fst snd].
  - apply take_drop.
  - apply TextFacts.append_nil_r.
Qed.

Lemma splitext_suffix p : PyStr.endswith p (snd (splitext p)) = true.
Proof.
  rewrite <- (splitext_join p) at 1. apply ExecExtra.endswith_append.
Qed.

(** X16.  The server is started with [python] only for a path that ends in
    [.py] and with [node] only for a path that ends in [.js], the path
    being the single argument; every other path is refused. *)
Theorem server_params_by_extension (path command : string)
    (args : list string) :
  server_params path = Start command args ->
  args = [path] /\
  (command = "python" /\ PyStr.endswith path ".py" = true \/
   command = "node" /\ PyStr.endswith path ".js" = true).
Proof.
  unfold server_params. pose proof (splitext_suffix path) as Hs.
  destruct (String.eqb_spec (snd (splitext path)) ".py") as [Epy|_].
  - cbn [negb andb]. intros [= <- <-]. split; [reflexivity|]. left.
    split; [reflexivity|]. now rewrite Epy in Hs.
  - cbn [negb andb].
    destruct (String.eqb_spec (snd (splitext path)) ".js") as [Ejs|_];
      cbn [negb]; [|discriminate].
    intros [= <- <-]. split; [reflexivity|]. right.
    split; [reflexivity|]. now rewrite Ejs in Hs.
Qed.

Lemma server_params_by_extension_witness :
  server_params "server.py" = Start "python" ["server.py"] /\
  server_params ".py" = ValueError "服务器脚本仅支持python或typescript文件" /\
  ["tools/index.js"] = ["tools/index.js"] /\
  ("node" = "python" /\ PyStr.endswith "tools/index.js" ".py" = true \/
   "node" = "node" /\ PyStr.endswith "tools/index.js" ".js" = true).
Proof.
  split; [reflexivity|]. split; [reflexivity|].
  exact (server_params_by_extension "tools/index.js" "node"
           ["tools/index.js"] eq_refl).
Defined.

End LaunchFacts.

(** ** client.py: [process_query] and [chat_loop] *)

Module QueryFacts.
Import Json Host Client Query.

Section Outcome.
Context {W : Type}.
Variable list_tools : W -> result (list (string * string)) * W.
Variable now : W -> string * W.
Variable complete : W -> list message -> result string * W.
Variable summarize : W -> list message -> result string * W.
Variable call_tool : W -> json -> list (string * json) -> outcome * W.
Variable write_file : W -> string -> string -> result unit * W.
Variable dumps : list (string * string) -> string.

(** The outcome of a query is settled by the catalog request and the
    first two statements of the planner. *)
Lemma process_query_outcome (w : W) (query : string) :
  process_query list_tools now complete summarize call_tool write_file
    dumps w query
  = match list_tools w with
    | (Raise e, w1) => ((Raise e, []), w1)
    | (Ok _, w1) => ((Raise TypeError, [heading]), snd (now w1))
    end.
Proof.
  unfold Query.process_query.
  destruct (list_tools w) as [[tools|e] w1]; [|reflexivity].
  destruct (now w1) as [timestamp w2]. reflexivity.
Qed.

End Outcome.

Section QueryFacts.
Context {W : Type}.
Variable list_tools : W -> result (list (string * string)) * W.
Variable now : W -> string * W.
Variable complete : W -> list message -> result string * W.
Variable summarize : W -> list message -> result string * W.
Variable call_tool : W -> json -> list (string * json) -> outcome * W.
Variable write_file : W -> string -> string -> result unit * W.
Variable str_exn : exn -> string.
Variable dumps : list (string * string) -> string.

Local Abbreviation process_query :=
  (process_query list_tools now complete summarize call_tool write_file
     dumps).
Local Abbreviation chat_turns :=
  (chat_turns list_tools now complete summarize call_tool write_file str_exn
     dumps).
Local Abbreviation chat_loop :=
  (chat_loop list_tools now complete summarize call_tool write_file str_exn
     dumps).
Local Abbreviation error_line := (error_line str_exn).

(** X17.  [process_query] answers no query: it always ends with an
    exception.  When the catalog request fails, its exception is the one
    raised and nothing is printed.  Otherwise the clock is read, the
    planner prints its heading and raises [TypeError] at its next
    statement: the heading is the only line printed, and the outcome is the
    same whatever the model, the tools and the file system would have
    done, so no completion is requested, no tool is called and no record
    is written. *)
Theorem process_query_raises (w : W) (query : string) :
  (exists e printed w',
     process_query w query = ((Raise e, printed), w') /\
     (printed = [] \/ printed = [heading])) /\
  (forall tools w1, list_tools w = (Ok tools, w1) ->
     process_query w query = ((Raise TypeError, [heading]), snd (now w1))) /\
  (forall e w1, list_tools w = (Raise e, w1) ->
     process_query w query = ((Raise e, []), w1)) /\
  (forall complete' summarize' call_tool' write_file' dumps',
     Query.process_query list_tools now complete' summarize' call_tool'
       write_file' dumps' w query
     = process_query w query).
Proof.
  split; [|split; [|split]].
  - rewrite process_query_outcome.
    destruct (list_tools w) as [[tools|e] w1]; eauto 6.
  - intros tools w1 E. now rewrite process_query_outcome, E.
  - intros e w1 E. now rewrite process_query_outcome, E.
  - intros complete' summarize' call_tool' write_file' dumps'.
    now rewrite !process_query_outcome.
Qed.

Lemma chat_turns_blocks (inputs : list string) : forall w,
  exists blocks,
    fst (fst (chat_turns w inputs)) = concat blocks /\
    Forall (fun block => block = [heading; error_line TypeError] \/
                         exists e, block = [error_line e]) blocks /\
    (length blocks <= length inputs)%nat /\
    (snd (fst (chat_turns w inputs)) = false ->
     length blocks = length inputs).
Proof.
  induction inputs as [|line rest IH]; intros w; cbn [Query.chat_turns].
  - exists []. cbv zeta. simpl. repeat split; [constructor | lia].
  - destruct (String.eqb (strip_text line) "quit").
    + exists []. cbv zeta. simpl.
      repeat split; [constructor | lia | discriminate].
    + rewrite process_query_outcome.
      destruct (list_tools w) as [[tools|e] w1].
      * destruct (IH (snd (now w1))) as (blocks & Ho & Hf & Hl & Hq).
        destruct (chat_turns (snd (now w1)) rest) as [[more quit] w'].
        cbv zeta in *. cbn [fst snd] in *. subst more.
        exists ([heading; error_line TypeError] :: blocks).
        cbn [concat app length]. repeat split.
        -- constructor; [now left | exact Hf].
        -- lia.
        -- intros Hquit. now rewrite (Hq Hquit).
      * destruct (IH w1) as (blocks & Ho & Hf & Hl & Hq).
        destruct (chat_turns w1 rest) as [[more quit] w'].
        cbv zeta in *. cbn [fst snd] in *. subst more.
        exists ([error_line e] :: blocks).
        cbn [concat app length]. repeat split.
        -- constructor; [right; now exists e | exact Hf].
        -- lia.
        -- intros Hquit. now rewrite (Hq Hquit).
Qed.

(** X18.  Whatever is typed, [chat_loop] prints its banner and then one
    block of lines per query typed before [quit]: the heading of the
    planner followed by the error line of its [TypeError], or, when the
    catalog request failed, the error line of that failure alone.  No
    answer of the model is ever shown. *)
Theorem chat_loop_only_errors (inputs : list string) : forall w,
  exists blocks,
    fst (fst (chat_loop w inputs)) = banner :: concat blocks /\
    Forall (fun block => block = [heading; error_line TypeError] \/
                         exists e, block = [error_line e]) blocks /\
    (length blocks <= length inputs)%nat /\
    (snd (fst (chat_loop w inputs)) = false ->
     length blocks = length inputs).
Proof.
  intros w. destruct (chat_turns_blocks inputs w) as (blocks & Ho & Hf & Hl & Hq).
  exists blocks. unfold Query.chat_loop.
  destruct (chat_turns w inputs) as [[out quit] w'].
  cbn [fst snd] in *. subst out. auto.
Qed.

End QueryFacts.
End QueryFacts.

(** ** fastmcp_sse_client.py: the outer loop *)

Module SseLoopFacts.
Import Json Host SseClient SseLoop.

Section Start.
Context {H L : Type}.
Variable list_tools : H -> result (list string).
Variable call_tool : H -> string -> json -> outcome * H.
Variable py_str : json -> string.
Variable get_response : L -> list message -> result string * L.

Local Abbreviation session := (@session H L).
Local Abbreviation process :=
  (process_llm_response (L := L) list_tools call_tool py_str).
Local Abbreviation tool_loop :=
  (tool_loop list_tools call_tool py_str get_response).
Local Abbreviation turn := (turn list_tools call_tool py_str get_response).
Local Abbreviation start_loop :=
  (start_loop list_tools call_tool py_str get_response).
Local Abbreviation start := (start list_tools call_tool py_str get_response).

Implicit Types (st : session).

Lemma extends_refl st : extends st st.
Proof. split; exists []; now rewrite app_nil_r. Qed.

Lemma extends_trans st1 st2 st3 :
  extends st2 st1 -> extends st3 st2 -> extends st3 st1.
Proof.
  intros [[m1 E1] [c1 F1]] [[m2 E2] [c2 F2]]. split.
  - exists (m1 ++ m2). now rewrite E2, E1, app_assoc.
  - exists (c1 ++ c2). now rewrite F2, F1, app_assoc.
Qed.

Lemma process_extends st r : extends (snd (process st r)) st.
Proof.
  unfold SseClient.process_llm_response.
  destruct (loads (unfence r)) as [v|[]]; try apply extends_refl.
  destruct (contains v "tool") as [[]|]; try apply extends_refl.
  destruct (contains v "arguments") as [[]|]; try apply extends_refl.
  destruct (list_tools (host st)); try apply extends_refl.
  destruct (getitem v "tool") as [tool|]; try apply extends_refl.
  destruct (known a tool); try apply extends_refl.
  unfold invoke.
  destruct (getitem v "arguments"); [|apply extends_refl].
  destruct (call_tool _ _ _) as [out h'].
  destruct out as [msg|e [|[text|kind] items]]; cbn [snd];
    (split; [exists []; now rewrite app_nil_r | eexists; reflexivity]).
Qed.

Lemma say_extends st ms : extends (say st ms) st.
Proof.
  split; [now exists ms | exists []; simpl; now rewrite app_nil_r].
Qed.

Lemma ask_extends st : extends (snd (ask get_response st)) st.
Proof.
  unfold ask. destruct (get_response _ _).
  split; exists []; simpl; now rewrite app_nil_r.
Qed.

Lemma tool_loop_extends fuel : forall st r res st' e,
  tool_loop fuel st r res = Some (st', e) -> extends st' st.
Proof.
  induction fuel as [|fuel IH]; intros st r res st' e;
    cbn [SseClient.tool_loop]; destruct (String.eqb res r).
  - intros [= <- <-]. apply say_extends.
  - discriminate.
  - intros [= <- <-]. apply say_extends.
  - pose proof (ask_extends (say st [Message "assistant" r;
                                     Message "system" res])) as Ha.
    destruct (ask get_response _) as [[r'|e'] st2]; cbn [snd] in Ha.
    + pose proof (process_extends st2 r') as Hp.
      destruct (process st2 r') as [[res'|e''] st3]; cbn [snd] in Hp.
      * intros E. apply IH in E.
        eapply extends_trans; [apply say_extends|].
        eapply extends_trans; [exact Ha|].
        eapply extends_trans; [exact Hp | exact E].
      * intros [= <- <-].
        eapply extends_trans; [apply say_extends|].
        eapply extends_trans; [exact Ha | exact Hp].
    + intros [= <- <-].
      eapply extends_trans; [apply say_extends | exact Ha].
Qed.

Lemma turn_extends fuel st user_input st' e :
  turn fuel st user_input = Some (st', e) -> extends st' st.
Proof.
  unfold SseClient.turn.
  pose proof (ask_extends (say st [Message "user" user_input])) as Ha.
  destruct (ask get_response _) as [[r|e'] st1]; cbn [snd] in Ha.
  - pose proof (process_extends st1 r) as Hp.
    destruct (process st1 r) as [[res|e''] st2]; cbn [snd] in Hp.
    + intros E. apply tool_loop_extends in E.
      eapply extends_trans; [apply say_extends|].
      eapply extends_trans; [exact Ha|].
      eapply extends_trans; [exact Hp | exact E].
    + intros [= <- <-].
      eapply extends_trans; [apply say_extends|].
      eapply extends_trans; [exact Ha | exact Hp].
  - intros [= <- <-].
    eapply extends_trans; [apply say_extends | exact Ha].
Qed.

(** X19.  However the session goes -- over any number of turns, ended by a
    quit word, an interrupt or an exception, or still running -- it never
    drops or rewrites a message or a logged call: the transcript and the
    log of the start are prefixes of those at the end, and the system
    message stays the first message. *)
Theorem start_keeps_history (events : list event) (fuel : nat) :
  (forall st, extends (fst (start_loop fuel st events)) st) /\
  (forall h l system_message,
      exists ms,
        messages (fst (start fuel h l system_message events))
        = Message "system" system_message :: ms).
Proof.
  assert (A : forall st, extends (fst (start_loop fuel st events)) st).
  { induction events as [|ev rest IH]; intros st; cbn [SseLoop.start_loop].
    - apply extends_refl.
    - destruct ev as [s|]; [|apply extends_refl].
      destruct (existsb _ quit_words); [apply extends_refl|].
      destruct (turn fuel st _) as [[st' [e|]]|] eqn:E;
        try apply extends_refl.
      + cbn [fst]. now apply turn_extends in E.
      + apply turn_extends in E.
        eapply extends_trans; [exact E | apply IH]. }
  split; [exact A|].
  intros h l system_message. unfold SseLoop.start.
  destruct (A (Session [Message "system" system_message] h l []))
    as [[ms E] _].
  exists ms. now rewrite E.
Qed.

(** X20.  A reply that decodes to a number, a boolean or null ends the
    whole session: the [TypeError] of the reply handler is not caught by
    [start], and the lines typed after it are never read. *)
Theorem start_crashes_on_scalar_reply (fuel : nat) st (s : string)
    (rest : list event) (reply : string) (l' : L) (v : json) :
  existsb (String.eqb (lower (Query.strip_text s))) quit_words = false ->
  get_response (llm st)
    (messages st ++ [Message "user" (lower (Query.strip_text s))])
  = (Ok reply, l') ->
  loads (unfence reply) = Ok v ->
  (v = JNull \/ (exists b, v = JBool b) \/ exists n, v = JNum n) ->
  snd (start_loop fuel st (Line s :: rest)) = Crashed TypeError.
Proof.
  intros Hq Hr Hl Hv. cbn [SseLoop.start_loop]. rewrite Hq.
  unfold SseClient.turn, ask, say. cbn [llm messages host calls].
  rewrite Hr. unfold SseClient.process_llm_response. rewrite Hl.
  destruct Hv as [->|[[b ->]|[n ->]]]; reflexivity.
Qed.

End Start.

Lemma start_crashes_on_scalar_reply_witness :
  snd (start_loop Scenario.catalog (@Scenario.script_host string json)
         Scenario.no_str scripted 5
         (Session [Message "system" "rules"] [] ["5"; "never asked"] [])
         [Line "  What is 2 + 3?  "; Line "and 4 + 4?"])
  = Crashed TypeError.
Proof.
  apply (start_crashes_on_scalar_reply Scenario.catalog
           (@Scenario.script_host string json) Scenario.no_str scripted 5
           (Session [Message "system" "rules"] [] ["5"; "never asked"] [])
           "  What is 2 + 3?  " [Line "and 4 + 4?"] "5" ["never asked"]
           (JNum "5")); try reflexivity.
  right. right. now exists "5".
Defined.

End SseLoopFacts.

(** ** server.py: the news search *)

Module ServerFacts.
Import Json Server.

Lemma not_contained_no_item (v : json) (key : string) :
  contains v key = Ok false -> exists e, getitem v key = Raise e.
Proof.
  destruct v as [| | | | |d]; cbn [contains getitem];
    try (intros _; now exists TypeError).
  intros [= M]. apply DictFacts.mem_false in M. rewrite M.
  now exists KeyError.
Qed.

Section News.
Context {W : Type}.
Variable getenv : string -> option string.
Variable post :
  W -> string -> list (string * string) -> json -> result json * W.

Local Abbreviation search := (search_google_news getenv post).

(** X21.  [search_google_news] never reports news.  Whatever lines 42-60
    would do, they are not reached: the answer is the sentence that no
    result was found, or a failure; and the sentence that no result was
    found is what the tool gives exactly when the service did send an
    answer that holds [news]. *)
Theorem search_google_news_never_reports
    (report : json -> string -> W -> answer * W) (w : W) (keywords : string) :
  (fst (search report w keywords) = Answer no_results \/
   exists f, fst (search report w keywords) = Failed f) /\
  (forall report', search report' w keywords = search report w keywords) /\
  (forall api_key data w1,
      getenv "SERPER_API_KEY" = Some api_key -> api_key <> EmptyString ->
      post w "https://google.serper.dev/news/"
        [("X-API-KEY", api_key); ("Content-Type", "application/json")]
        (JObj [("q", JStr keywords)]) = (Ok data, w1) ->
      contains data "news" = Ok true ->
      search report w keywords = (Answer no_results, w1)).
Proof.
  unfold search_google_news.
  destruct (getenv "SERPER_API_KEY") as [[|c key]|] eqn:Ek.
  - repeat split; [right; eexists; reflexivity|].
    intros api_key data w1 [= <-] Hne. now destruct Hne.
  - destruct (post w _ _ _) as [[data|e] w1] eqn:Ep.
    + destruct (contains data "news") as [[]|e] eqn:Ec.
      * repeat split; [now left|].
        intros api_key data' w1' [= <-] _ Ep'.
        rewrite Ep in Ep'. now injection Ep' as <- <-.
      * destruct (not_contained_no_item _ _ Ec) as [e ->].
        repeat split; [right; eexists; reflexivity|].
        intros api_key data' w1' [= <-] _ Ep'.
        rewrite Ep in Ep'. injection Ep' as <- <-. congruence.
      * repeat split; [right; eexists; reflexivity|].
        intros api_key data' w1' [= <-] _ Ep'.
        rewrite Ep in Ep'. injection Ep' as <- <-. congruence.
    + repeat split; [right; eexists; reflexivity|].
      intros api_key data' w1' [= <-] _ Ep'. rewrite Ep in Ep'. discriminate.
  - repeat split; [right; eexists; reflexivity|]. discriminate.
Qed.

End News.

Lemma search_google_news_never_reports_witness :
  let getenv := fun _ : string => Some "key" in
  let post := fun (w : unit) (_ : string) (_ : list (string * string))
                  (_ : json) =>
                (Ok (JObj [("news", JArr [JObj [("title", JStr "t")]])]), w) in
  search_google_news getenv post (fun _ _ w => (Answer "the news", w)) tt "ai"
  = (Answer no_results, tt).
Proof.
  cbv zeta.
  apply (proj2 (proj2 (search_google_news_never_reports
                         (fun _ : string => Some "key")
                         (fun (w : unit) _ _ _ =>
                            (Ok (JObj [("news",
                                        JArr [JObj [("title", JStr "t")]])]),
                             w))
                         (fun _ _ w => (Answer "the news", w)) tt "ai"))
           "key" (JObj [("news", JArr [JObj [("title", JStr "t")]])]) tt);
    [reflexivity | discriminate | reflexivity | reflexivity].
Defined.

End ServerFacts.
